(** * GitAudit portfolio analyzer: a shallow embedding of [app.py]

    The development follows the pipeline of the program:
    the scoring functions ([calculate_documentation_score],
    [calculate_code_quality_score], [calculate_activity_score]),
    the data fetcher ([get_enhanced_github_data]), the aggregate
    ([calculate_portfolio_score]), the recommendation rules
    ([get_actionable_recommendations]) and the assessment adapter
    ([analyze_with_ai]).

    Conventions of the embedding.
    - A Python [dict] with string keys is a [gmap string _]; [d.get(k, v)]
      is [dict_get], [d[k]] is [dict_item] (raising [KeyError]) and
      [d[k] = v] is the map insertion [<[k:=v]> d].
    - Code that may raise returns an [outcome]; the bind of the monad
      is Python's sequencing, so the first exception wins.
    - Values read from the GitHub payloads are [pyval]s.  The payloads of
      the endpoints used here carry no fractional numbers, so [pyval] has
      [None], [bool], [int], [str], [list] and [dict] only.
    - Numbers computed with Python's true division and [round] are exact
      rationals ([Q]): the binary64 rounding of each operation is not
      part of the model.  The weight table and the weighted sum are
      given in binary64 as well ([weights_binary64],
      [final_score_binary64]), for the facts stated about them there.
    - The process environment (token, clock, network) is explicit: the
      token and the answers of the repository host are fields of an
      [environment], the clock is a sequence of readings, and what
      [st.error] shows is returned next to the result.
    - The text of the language model is a list of code points, decoded
      by a model of [json.loads]; the recursion limit of the interpreter
      is not modelled.

    The first half of the file holds the definitions, the embedding
    first and then the vocabulary used to state the properties; the
    second half holds the proofs. *)

From Stdlib Require Import ZArith QArith Lqa String Ascii List Lia.
From Stdlib Require Import PrimFloat.
From stdpp Require Import base option gmap strings list.
From Equations Require Import Equations.

Set Warnings "-register-all,-inexact-float".
Local Open Scope Z_scope.

(* ===================================================================== *)
(** * Exceptions and outcomes *)
(* ===================================================================== *)

(** The exception classes the modelled code can meet.  All of them are
    subclasses of Python's [Exception]. *)
Inductive exn : Type :=
  | KeyError (key : string)
  | TypeError
  | ValueError
  | AttributeError
  | RequestException
  | JSONDecodeError.

Inductive outcome (A : Type) : Type :=
  | Ret (a : A)
  | Raise (e : exn).
Arguments Ret {A} a.
Arguments Raise {A} e.

#[global] Instance outcome_ret : MRet outcome := fun A a => Ret a.
#[global] Instance outcome_bind : MBind outcome := fun A B f m =>
  match m with
  | Ret a => f a
  | Raise e => Raise e
  end.

Definition returns {A} (m : outcome A) : Prop := exists a, m = Ret a.

(* ===================================================================== *)
(** * Python values of the GitHub payloads *)
(* ===================================================================== *)

Inductive pyval : Type :=
  | PNone
  | PBool (b : bool)
  | PInt (n : Z)
  | PStr (s : string)
  | PList (l : list pyval)
  | PDict (d : gmap string pyval).

(** Truth value testing ([if v:]). *)
Definition truthy (v : pyval) : bool :=
  match v with
  | PNone => false
  | PBool b => b
  | PInt n => negb (n =? 0)
  | PStr s => negb (String.eqb s "")
  | PList l => match l with [] => false | _ :: _ => true end
  | PDict d => match map_to_list d with [] => false | _ :: _ => true end
  end.

(** [d.get(k, dflt)] *)
Definition dict_get (d : gmap string pyval) (k : string) (dflt : pyval) : pyval :=
  default dflt (d !! k).

(** [d.get(k)], whose default is [None]. *)
Definition dict_get_none (d : gmap string pyval) (k : string) : pyval :=
  dict_get d k PNone.

(** [d[k]] *)
Definition dict_item (d : gmap string pyval) (k : string) : outcome pyval :=
  match d !! k with
  | Some v => Ret v
  | None => Raise (KeyError k)
  end.

(** The integer a value stands for in arithmetic and ordering: [int]
    itself and [bool] (a subclass of [int]); anything else is a
    [TypeError] against an [int] operand. *)
Definition as_int (v : pyval) : outcome Z :=
  match v with
  | PInt n => Ret n
  | PBool b => Ret (Z.b2z b)
  | _ => Raise TypeError
  end.

(** [v > c] and [v < c] for an [int] constant [c]. *)
Definition py_gt (v : pyval) (c : Z) : outcome bool :=
  n ← as_int v; Ret (c <? n).

Definition py_lt (v : pyval) (c : Z) : outcome bool :=
  n ← as_int v; Ret (n <? c).

(** [v == c] never raises. *)
Definition py_eq_int (v : pyval) (c : Z) : bool :=
  match v with
  | PInt n => n =? c
  | PBool b => Z.b2z b =? c
  | _ => false
  end.

(** [sum(vs)]: the accumulator starts at the [int] 0. *)
Fixpoint py_sum_from (acc : Z) (vs : list pyval) : outcome Z :=
  match vs with
  | [] => Ret acc
  | v :: vs' => n ← as_int v; py_sum_from (acc + n) vs'
  end.

Definition py_sum (vs : list pyval) : outcome Z := py_sum_from 0 vs.

(** [len(v)] *)
Definition py_len (v : pyval) : outcome Z :=
  match v with
  | PStr s => Ret (Z.of_nat (String.length s))
  | PList l => Ret (Z.of_nat (length l))
  | PDict d => Ret (Z.of_nat (size d))
  | _ => Raise TypeError
  end.

(* ===================================================================== *)
(** * Scoring engine: documentation and code quality *)
(* ===================================================================== *)

(** [score += k] under [if c:] *)
Definition add_if (c : bool) (k : Z) (score : Z) : Z :=
  if c then score + k else score.

Definition calculate_documentation_score (repo : gmap string pyval) : Z :=
  let score := 0 in
  let score := add_if (truthy (dict_get repo "readme_exists" (PBool false))) 40 score in
  let score := add_if (truthy (dict_get_none repo "description")) 20 score in
  let score := add_if (truthy (dict_get_none repo "homepage")) 10 score in
  let score := add_if (truthy (dict_get_none repo "has_wiki")) 15 score in
  let score := add_if (truthy (dict_get_none repo "has_pages")) 15 score in
  Z.min score 100.

Definition calculate_code_quality_score (repo : gmap string pyval) : outcome Z :=
  let score := 0 in
  c ← py_gt (dict_get repo "languages_count" (PInt 0)) 0;
  let score := add_if c 20 score in
  let score := add_if (truthy (dict_get repo "has_issues" (PBool false))) 15 score in
  let score := add_if (truthy (dict_get repo "has_projects" (PBool false))) 15 score in
  c ← py_gt (dict_get repo "size" (PInt 0)) 0;
  let score := add_if c 25 score in
  c ← py_gt (dict_get repo "stargazers_count" (PInt 0)) 0;
  let score := add_if c 25 score in
  Ret (Z.min score 100).

(* ===================================================================== *)
(** * Naive datetimes and [datetime.strptime] *)
(* ===================================================================== *)

Record datetime : Type := mk_datetime {
  year : Z; month : Z; day : Z;
  hour : Z; minute : Z; second : Z; microsecond : Z
}.

Definition is_leap (y : Z) : bool :=
  (y mod 4 =? 0) && (negb (y mod 100 =? 0) || (y mod 400 =? 0)).

Definition days_in_month (y m : Z) : Z :=
  if m =? 2 then (if is_leap y then 29 else 28)
  else if (m =? 4) || (m =? 6) || (m =? 9) || (m =? 11) then 30
  else 31.

(** Days of the months before month [m] of year [y]. *)
Fixpoint days_before_month_aux (y : Z) (k : nat) : Z :=
  match k with
  | O => 0
  | S k' => days_before_month_aux y k' + days_in_month y (Z.of_nat k)
  end.

Definition days_before_month (y m : Z) : Z :=
  days_before_month_aux y (Z.to_nat (m - 1)).

Definition days_before_year (y : Z) : Z :=
  let p := y - 1 in p * 365 + p / 4 - p / 100 + p / 400.

(** [date.toordinal()]: 1 for 0001-01-01. *)
Definition toordinal (d : datetime) : Z :=
  days_before_year (year d) + days_before_month (year d) (month d) + day d.

Definition microseconds_of (d : datetime) : Z :=
  ((toordinal d * 86400 + hour d * 3600 + minute d * 60 + second d) * 1000000)
  + microsecond d.

(** [(a - b).days]: a [timedelta] is normalised so that its seconds and
    microseconds are non-negative, hence the floor. *)
Definition timedelta_days (a b : datetime) : Z :=
  (microseconds_of a - microseconds_of b) / 86400000000.

(** The constructor's range checks. *)
Definition valid_datetime (d : datetime) : bool :=
  (1 <=? year d) && (year d <=? 9999) &&
  (1 <=? month d) && (month d <=? 12) &&
  (1 <=? day d) && (day d <=? days_in_month (year d) (month d)) &&
  (0 <=? hour d) && (hour d <=? 23) &&
  (0 <=? minute d) && (minute d <=? 59) &&
  (0 <=? second d) && (second d <=? 59).

Definition digit_of (c : ascii) : option Z :=
  let n := Z.of_N (N_of_ascii c) in
  if (48 <=? n) && (n <=? 57) then Some (n - 48) else None.

(** The text before the first separator and the text after it. *)
Fixpoint split_at (sep : ascii -> bool) (s : string) : option (string * string) :=
  match s with
  | EmptyString => None
  | String c s' =>
      if sep c then Some (EmptyString, s')
      else '(seg, rest) ← split_at sep s'; Some (String c seg, rest)
  end.

Definition is_char (x : ascii) (c : ascii) : bool := Ascii.eqb x c.

(** Literals of the format match case-insensitively. *)
Definition is_char_nocase (lower upper : ascii) (c : ascii) : bool :=
  Ascii.eqb lower c || Ascii.eqb upper c.

(** [%Y]: four digits. *)
Definition field_Y (s : string) : option Z :=
  match s with
  | String a (String b (String c (String d EmptyString))) =>
      a ← digit_of a; b ← digit_of b; c ← digit_of c; d ← digit_of d;
      Some (((a * 10 + b) * 10 + c) * 10 + d)
  | _ => None
  end.

(** One or two digits, as a number, with the number of characters. *)
Definition one_or_two_digits (s : string) : option (Z * nat) :=
  match s with
  | String a EmptyString => a ← digit_of a; Some (a, 1%nat)
  | String a (String b EmptyString) =>
      a ← digit_of a; b ← digit_of b; Some (a * 10 + b, 2%nat)
  | _ => None
  end.

(** [%m]: [1[0-2]|0[1-9]|[1-9]] *)
Definition field_m (s : string) : option Z :=
  '(n, _) ← one_or_two_digits s;
  if (1 <=? n) && (n <=? 12) then Some n else None.

(** [%d]: [3[0-1]|[1-2]\d|0[1-9]|[1-9]| [1-9]] *)
Definition field_d (s : string) : option Z :=
  match s with
  | String " " (String b EmptyString) =>
      b ← digit_of b; if 1 <=? b then Some b else None
  | _ =>
      '(n, _) ← one_or_two_digits s;
      if (1 <=? n) && (n <=? 31) then Some n else None
  end.

(** [%H]: [2[0-3]|[0-1]\d|\d] *)
Definition field_H (s : string) : option Z :=
  '(n, _) ← one_or_two_digits s;
  if n <=? 23 then Some n else None.

(** [%M]: [[0-5]\d|\d] *)
Definition field_M (s : string) : option Z :=
  '(n, _) ← one_or_two_digits s;
  if n <=? 59 then Some n else None.

(** [%S]: [6[0-1]|[0-5]\d|\d] *)
Definition field_S (s : string) : option Z :=
  '(n, _) ← one_or_two_digits s;
  if n <=? 61 then Some n else None.

(** The match of the regular expression compiled from
    ['%Y-%m-%dT%H:%M:%SZ'] against the whole text.  Every field is
    followed by a literal that none of its alternatives contains, so the
    field is the text up to that literal. *)
Definition match_pushed_at (s : string) : option datetime :=
  '(fY, s) ← split_at (is_char "-") s;
  y ← field_Y fY;
  '(fm, s) ← split_at (is_char "-") s;
  m ← field_m fm;
  '(fd, s) ← split_at (is_char_nocase "t" "T") s;
  d ← field_d fd;
  '(fH, s) ← split_at (is_char ":") s;
  H ← field_H fH;
  '(fM, s) ← split_at (is_char ":") s;
  M ← field_M fM;
  '(fS, s) ← split_at (is_char_nocase "z" "Z") s;
  S ← field_S fS;
  match s with
  | EmptyString => Some (mk_datetime y m d H M S 0)
  | _ => None
  end.

(** [datetime.strptime(v, '%Y-%m-%dT%H:%M:%SZ')] *)
Definition strptime (v : pyval) : outcome datetime :=
  match v with
  | PStr s =>
      match match_pushed_at s with
      | Some d => if valid_datetime d then Ret d else Raise ValueError
      | None => Raise ValueError
      end
  | _ => Raise TypeError
  end.

(* ===================================================================== *)
(** * Scoring engine: activity *)
(* ===================================================================== *)

(** [now] is the reading of [datetime.now()] made by the call. *)
Definition calculate_activity_score (now : datetime) (repo : gmap string pyval)
  : outcome Z :=
  let score := 0 in
  pushed_at ← strptime (dict_get repo "pushed_at" (PStr "2000-01-01"));
  let days_since_update := timedelta_days now pushed_at in
  let score :=
    if days_since_update <? 7 then score + 40
    else if days_since_update <? 30 then score + 30
    else if days_since_update <? 90 then score + 20
    else score + 10 in
  c ← py_gt (dict_get repo "open_issues_count" (PInt 0)) 0;
  let score := add_if c 20 score in
  c ← py_gt (dict_get repo "forks_count" (PInt 0)) 0;
  let score := add_if c 20 score in
  c ← py_gt (dict_get repo "watchers_count" (PInt 0)) 0;
  let score := add_if c 20 score in
  Ret (Z.min score 100).

(* ===================================================================== *)
(** * Data fetcher *)
(* ===================================================================== *)

(** What [requests.get] can do: raise, or hand back a response with a
    status code and a body; [body = None] is a body whose decoding by
    [response.json()] raises. *)
Inductive http_result (A : Type) : Type :=
  | ConnectionFailed
  | Response (status_code : Z) (body : option A).
Arguments ConnectionFailed {A}.
Arguments Response {A} status_code body.

(** The process environment of one run: the token read at start-up, the
    successive readings of [datetime.now()], and the answers of the
    repository host, one per URL the fetcher builds.  The README answer
    carries the text obtained by
    [base64.b64decode(response.json().get('content', '')).decode('utf-8')],
    absent when one of these steps raises. *)
Record environment : Type := mk_environment {
  GITHUB_TOKEN : option string;
  clock : nat -> datetime;
  get_user : string -> http_result pyval;
  get_repos : string -> Z -> http_result (list (gmap string pyval));
  get_readme : pyval -> http_result string;
  get_languages : pyval -> http_result pyval;
  get_commit_stats : pyval -> http_result pyval;
  get_orgs : string -> http_result pyval
}.

Record bundle : Type := mk_bundle {
  user : pyval;
  repos : list (gmap string pyval);
  orgs : pyval
}.

Inductive fetch_result : Type :=
  | NO_TOKEN
  | ERROR
  | Data (b : bundle).

(** [requests.get(url)] where the call is not guarded. *)
Definition requests_get {A} (r : http_result A) : outcome (Z * option A) :=
  match r with
  | ConnectionFailed => Raise RequestException
  | Response status body => Ret (status, body)
  end.

(** [response.json()] *)
Definition json_of {A} (body : option A) : outcome A :=
  match body with
  | Some v => Ret v
  | None => Raise JSONDecodeError
  end.

(** The bare [except:] of the two guarded helpers turns any exception
    into the fall-through [return None]. *)
Definition get_readme_content (env : environment) (repo_full_name : pyval)
  : option string :=
  match get_readme env repo_full_name with
  | Response 200 (Some content) => Some (String.substring 0 500 content)
  | _ => None
  end.

Definition get_commit_activity (env : environment) (repo_full_name : pyval)
  : option pyval :=
  match get_commit_stats env repo_full_name with
  | Response 200 (Some stats) => Some stats
  | _ => None
  end.

(** [None] for an absent optional value. *)
Definition py_option (f : option pyval) : pyval := default PNone f.

(** The [while len(repos) < 50] loop over the pages. *)
Equations? fetch_repo_pages (env : environment) (username : string)
  (page : Z) (acc : list (gmap string pyval))
  : outcome (list (gmap string pyval)) by wf (50 - length acc)%nat lt :=
fetch_repo_pages env username page acc with lt_dec (length acc) 50 := {
  | right _ => Ret acc
  | left Hlt with get_repos env username page := {
      | ConnectionFailed => Raise RequestException
      | Response status body with status =? 200 := {
          | false => Ret acc
          | true with body := {
              | None => Raise JSONDecodeError
              | Some [] => Ret acc
              | Some (r :: rs) =>
                  fetch_repo_pages env username (page + 1) (acc ++ r :: rs) } } } }.
Proof. rewrite length_app. simpl. lia. Qed.

(** The body of the [for repo in repos] loop; [tick] counts the clock
    readings made so far. *)
Definition enhance_repo (env : environment) (tick : nat)
  (repo : gmap string pyval) : outcome (gmap string pyval) :=
  repo_full_name ← dict_item repo "full_name";
  let readme := get_readme_content env repo_full_name in
  let repo := <["readme_exists" := PBool (bool_decide (is_Some readme))]> repo in
  let repo := <["readme_preview" := py_option (PStr <$> readme)]> repo in
  lang_url ← dict_item repo "languages_url";
  lang_res ← requests_get (get_languages env lang_url);
  languages ← (if fst lang_res =? 200 then json_of (snd lang_res)
               else Ret (PDict ∅));
  let repo := <["languages" := languages]> repo in
  languages_count ← py_len languages;
  let repo := <["languages_count" := PInt languages_count]> repo in
  let commits := get_commit_activity env repo_full_name in
  let repo := <["commit_activity" := py_option commits]> repo in
  let repo := <["doc_score" := PInt (calculate_documentation_score repo)]> repo in
  code_score ← calculate_code_quality_score repo;
  let repo := <["code_score" := PInt code_score]> repo in
  activity_score ← calculate_activity_score (clock env tick) repo;
  let repo := <["activity_score" := PInt activity_score]> repo in
  Ret repo.

Fixpoint enhance_repos (env : environment) (tick : nat)
  (rs : list (gmap string pyval)) : outcome (list (gmap string pyval)) :=
  match rs with
  | [] => Ret []
  | repo :: rs' =>
      repo' ← enhance_repo env tick repo;
      rest ← enhance_repos env (S tick) rs';
      Ret (repo' :: rest)
  end.

(** The [try] block of [get_enhanced_github_data]. *)
Definition fetch_body (env : environment) (username : string)
  : outcome fetch_result :=
  user_res ← requests_get (get_user env username);
  if negb (fst user_res =? 200) then Ret ERROR else
  user_data ← json_of (snd user_res);
  repos ← fetch_repo_pages env username 1 [];
  enhanced_repos ← enhance_repos env 0 repos;
  orgs_res ← requests_get (get_orgs env username);
  orgs ← (if fst orgs_res =? 200 then json_of (snd orgs_res)
          else Ret (PList []));
  Ret (Data (mk_bundle user_data enhanced_repos orgs)).

(** The result and the exceptions shown with [st.error]. *)
Definition get_enhanced_github_data (env : environment) (username : string)
  : fetch_result * list exn :=
  match GITHUB_TOKEN env with
  | None | Some EmptyString => (NO_TOKEN, [])
  | Some _ =>
      match fetch_body env username with
      | Ret r => (r, [])
      | Raise e => (ERROR, [e])
      end
  end.

(* ===================================================================== *)
(** * Scoring engine: the portfolio aggregate *)
(* ===================================================================== *)

(** [a < b] on rationals, as a boolean. *)
Definition Qlt_bool (a b : Q) : bool := negb (Qle_bool b a).

(** [min(a, b)]: the first argument unless the second is smaller. *)
Definition py_min (a b : Q) : Q := if Qlt_bool b a then b else a.

(** [round(x, 1)]: the nearest multiple of one tenth, a tie going to the
    even one. *)
Definition round1 (x : Q) : Q :=
  let n := Qnum x * 10 in
  let d := Z.pos (Qden x) in
  let f := n / d in
  let r := n mod d in
  let k := if 2 * r <? d then f
           else if d <? 2 * r then f + 1
           else if Z.even f then f else f + 1 in
  Qred (k # 10).

(** [v.keys()] *)
Definition py_keys (v : pyval) : outcome (gset string) :=
  match v with
  | PDict d => Ret (dom d)
  | _ => Raise AttributeError
  end.

(** The loop [for repo in repos: languages.update(...)]. *)
Fixpoint collect_languages (languages : gset string)
  (rs : list (gmap string pyval)) : outcome (gset string) :=
  match rs with
  | [] => Ret languages
  | repo :: rs' =>
      ks ← py_keys (dict_get repo "languages" (PDict ∅));
      collect_languages (languages ∪ ks) rs'
  end.

Definition weights : gmap string Q :=
  <["documentation" := 20 # 100]> (
  <["code_quality" := 20 # 100]> (
  <["activity" := 15 # 100]> (
  <["organization" := 15 # 100]> (
  <["impact" := 15 # 100]> (
  <["technical_depth" := 15 # 100]> ∅))))).

(** [weights[k]] for a key of the literal. *)
Definition weight (k : string) : Q := default 0%Q (weights !! k).

(** [sum(r.get(k, 0) for r in repos)] *)
Definition sum_field (k : string) (rs : list (gmap string pyval)) : outcome Z :=
  py_sum (map (fun r => dict_get r k (PInt 0)) rs).

(** [s / len(repos)] *)
Definition mean (s : Z) (rs : list (gmap string pyval)) : Q :=
  (inject_Z s / inject_Z (Z.of_nat (length rs)))%Q.

Definition org_score_of (b : bundle) : Z :=
  let org_score := 0 in
  let org_score := add_if (truthy (orgs b)) 20 org_score in
  let org_score := add_if (5 <=? Z.of_nat (length (repos b))) 20 org_score in
  let org_score := add_if (3 <=? Z.of_nat (length (repos b))) 20 org_score in
  org_score.

(** The weighted sum of the six dimensions. *)
Definition final_score_of
  (doc_score code_score activity_score org_score impact_score tech_score : Q) : Q :=
  (doc_score * weight "documentation" +
   code_score * weight "code_quality" +
   activity_score * weight "activity" +
   org_score * weight "organization" +
   impact_score * weight "impact" +
   tech_score * weight "technical_depth")%Q.

(** The six dimension values before rounding. *)
Record dimensions : Type := mk_dimensions {
  doc_dim : Q; code_dim : Q; activity_dim : Q;
  org_dim : Q; impact_dim : Q; tech_dim : Q
}.

Definition compute_dimensions (b : bundle) : outcome dimensions :=
  let repos := repos b in
  d ← sum_field "doc_score" repos;
  let doc_score := mean d repos in
  c ← sum_field "code_score" repos;
  let code_score := mean c repos in
  a ← sum_field "activity_score" repos;
  let activity_score := mean a repos in
  let org_score := org_score_of b in
  total_stars ← sum_field "stargazers_count" repos;
  total_forks ← sum_field "forks_count" repos;
  let impact_score :=
    py_min 100 (inject_Z (total_stars * 2 + total_forks) / 5)%Q in
  languages ← collect_languages ∅ repos;
  let tech_score := 0 + Z.min 40 (Z.of_nat (size languages) * 8) in
  Ret (mk_dimensions doc_score code_score activity_score
         (inject_Z org_score) impact_score (inject_Z tech_score)).

Definition dimension_map (ds : dimensions) : gmap string Q :=
  <["Documentation Quality" := round1 (doc_dim ds)]> (
  <["Code Structure & Best Practices" := round1 (code_dim ds)]> (
  <["Activity Consistency" := round1 (activity_dim ds)]> (
  <["Repository Organization" := round1 (org_dim ds)]> (
  <["Project Impact" := round1 (impact_dim ds)]> (
  <["Technical Depth" := round1 (tech_dim ds)]> ∅))))).

Definition calculate_portfolio_score (data : fetch_result)
  : outcome (Q * gmap string Q) :=
  match data with
  | NO_TOKEN | ERROR => Ret (0%Q, ∅)
  | Data b =>
      match repos b with
      | [] => Ret (0%Q, ∅)
      | _ :: _ =>
          ds ← compute_dimensions b;
          let final_score :=
            final_score_of (doc_dim ds) (code_dim ds) (activity_dim ds)
                           (org_dim ds) (impact_dim ds) (tech_dim ds) in
          Ret (round1 final_score, dimension_map ds)
      end
  end.

(* ===================================================================== *)
(** * Recommendation generator *)
(* ===================================================================== *)

(** The text of an action: a literal, or an f-string with one hole. *)
Inductive action_text : Type :=
  | Text (s : string)
  | FString (before : string) (hole : pyval) (after : string).

(** The keys ['repo'], ['issue'], ['action'] and ['priority']. *)
Record recommendation : Type := mk_recommendation {
  rec_repo : pyval;
  rec_issue : string;
  rec_action : action_text;
  rec_priority : string
}.

Definition poor_documentation : recommendation :=
  mk_recommendation (PStr "General") "Poor Documentation"
    (Text "Add comprehensive READMEs with setup instructions, features, and screenshots")
    "High".

Definition inconsistent_activity : recommendation :=
  mk_recommendation (PStr "General") "Inconsistent Activity"
    (Text "Commit code at least 3-4 times per week to show active development")
    "Medium".

Definition missing_documentation (name : pyval) : recommendation :=
  mk_recommendation name "Missing Documentation"
    (FString "Add a detailed README.md to " name
             " with project description and setup guide")
    "High".

Definition low_impact (name : pyval) : recommendation :=
  mk_recommendation name "Low Impact"
    (FString "Promote " name
             " on social media and add screenshots to attract users")
    "Medium".

(** [dimension_scores[k]] *)
Definition dimension_item (dimension_scores : gmap string Q) (k : string)
  : outcome Q :=
  match dimension_scores !! k with
  | Some v => Ret v
  | None => Raise (KeyError k)
  end.

(** [data.get('repos', [])]; the sentinels are strings, which have no
    [get]. *)
Definition data_repos (data : fetch_result)
  : outcome (list (gmap string pyval)) :=
  match data with
  | Data b => Ret (repos b)
  | _ => Raise AttributeError
  end.

(** One turn of the loop over the repositories. *)
Definition recommend_repo (repo : gmap string pyval)
  (recommendations : list recommendation) : outcome (list recommendation) :=
  c ← py_lt (dict_get repo "doc_score" (PInt 0)) 40;
  recommendations ←
    (if c : bool then
       name ← dict_item repo "name";
       Ret (recommendations ++ [missing_documentation name])
     else Ret recommendations);
  if py_eq_int (dict_get repo "stargazers_count" (PInt 0)) 0
     && py_eq_int (dict_get repo "forks_count" (PInt 0)) 0
  then
    name ← dict_item repo "name";
    Ret (recommendations ++ [low_impact name])
  else Ret recommendations.

Fixpoint recommend_repos (rs : list (gmap string pyval))
  (recommendations : list recommendation) : outcome (list recommendation) :=
  match rs with
  | [] => Ret recommendations
  | repo :: rs' =>
      recommendations ← recommend_repo repo recommendations;
      recommend_repos rs' recommendations
  end.

Definition get_actionable_recommendations (data : fetch_result)
  (dimension_scores : gmap string Q) : outcome (list recommendation) :=
  let recommendations := [] in
  doc ← dimension_item dimension_scores "Documentation Quality";
  let recommendations :=
    if Qlt_bool doc 60 then recommendations ++ [poor_documentation]
    else recommendations in
  act ← dimension_item dimension_scores "Activity Consistency";
  let recommendations :=
    if Qlt_bool act 50 then recommendations ++ [inconsistent_activity]
    else recommendations in
  rs ← data_repos data;
  recommendations ← recommend_repos rs recommendations;
  Ret (take 5 recommendations).

(* ===================================================================== *)
(** * Text of the language model and [json.loads] *)
(* ===================================================================== *)

(** A Python [str] handled by the adapter is the list of its code
    points; [pystr_of] reads one off a literal. *)

Definition pystr_of (s : string) : list N :=
  map N_of_ascii (list_ascii_of_string s).

(** A decoded JSON document.  A number with a fraction or an exponent,
    and the constants [NaN], [Infinity] and [-Infinity], become the
    [float] of their text; the text is kept and its binary64 value is
    not computed. *)
Inductive json : Type :=
  | JNull
  | JBool (b : bool)
  | JInt (n : Z)
  | JFloat (text : list N)
  | JStr (s : list N)
  | JArr (items : list json)
  | JObj (members : gmap (list N) json).

Local Open Scope N_scope.

Fixpoint starts_with (p s : list N) : bool :=
  match p, s with
  | [], _ => true
  | _ :: _, [] => false
  | a :: p', b :: s' => (a =? b) && starts_with p' s'
  end.

(** [s.replace(old, new)] for a non-empty [old]: the occurrences are
    found from the left and do not overlap.  [skip] counts the
    characters of the occurrence just replaced that are still to be
    passed over. *)
Fixpoint replace_from (skip : nat) (old new s : list N) : list N :=
  match s with
  | [] => []
  | c :: s' =>
      match skip with
      | S k => replace_from k old new s'
      | O =>
          if starts_with old s
          then new ++ replace_from (length old - 1) old new s'
          else c :: replace_from 0 old new s'
      end
  end.

Definition replace (old new s : list N) : list N := replace_from 0 old new s.

(** [str.isspace] of one character. *)
Definition is_space (c : N) : bool :=
  ((9 <=? c) && (c <=? 13)) || ((28 <=? c) && (c <=? 32))
  || (c =? 133) || (c =? 160) || (c =? 5760)
  || ((8192 <=? c) && (c <=? 8202))
  || (c =? 8232) || (c =? 8233) || (c =? 8239) || (c =? 8287) || (c =? 12288).

Fixpoint lstrip (s : list N) : list N :=
  match s with
  | [] => []
  | c :: s' => if is_space c then lstrip s' else s
  end.

Definition rstrip (s : list N) : list N := rev (lstrip (rev s)).

(** [s.strip()] *)
Definition strip (s : list N) : list N := rstrip (lstrip s).

(** The decoder's whitespace: space, tab, line feed, carriage return. *)
Definition is_ws (c : N) : bool :=
  (c =? 32) || (c =? 9) || (c =? 10) || (c =? 13).

Fixpoint skip_ws (s : list N) : list N :=
  match s with
  | [] => []
  | c :: s' => if is_ws c then skip_ws s' else s
  end.

Definition is_digit (c : N) : bool := (48 <=? c) && (c <=? 57).

Definition hex_of (c : N) : option N :=
  if is_digit c then Some (c - 48)
  else if (65 <=? c) && (c <=? 70) then Some (c - 55)
  else if (97 <=? c) && (c <=? 102) then Some (c - 87)
  else None.

(** The number written by four hexadecimal digits. *)
Definition hex4 (a b c d : N) : option N :=
  a ← hex_of a; b ← hex_of b; c ← hex_of c; d ← hex_of d;
  Some (((a * 16 + b) * 16 + c) * 16 + d).

(** The escapes of one character after a backslash. *)
Definition backslash (esc : N) : option N :=
  if esc =? 34 then Some 34          (* quotation mark *)
  else if esc =? 92 then Some 92     (* reverse solidus *)
  else if esc =? 47 then Some 47     (* solidus *)
  else if esc =? 98 then Some 8      (* b: backspace *)
  else if esc =? 102 then Some 12    (* f: form feed *)
  else if esc =? 110 then Some 10    (* n: line feed *)
  else if esc =? 114 then Some 13    (* r: carriage return *)
  else if esc =? 116 then Some 9     (* t: tab *)
  else None.

Definition is_high_surrogate (u : N) : bool := (55296 <=? u) && (u <=? 56319).
Definition is_low_surrogate (u : N) : bool := (56320 <=? u) && (u <=? 57343).

Definition join_surrogates (u u2 : N) : N :=
  65536 + N.lor (N.shiftl (u - 55296) 10) (u2 - 56320).

(** The strict string scanner, entered after the opening quote: the
    decoded text and what follows the closing quote, or nothing when the
    string is unterminated, holds a control character or a bad escape. *)
Fixpoint scanstring (chunks : list N) (s : list N) {struct s}
  : option (list N * list N) :=
  match s with
  | [] => None
  | c :: s1 =>
      if c =? 34 then Some (chunks, s1)
      else if c =? 92 then
        match s1 with
        | [] => None
        | esc :: s2 =>
            if esc =? 117 then
              match s2 with
              | h1 :: h2 :: h3 :: h4 :: s3 =>
                  match hex4 h1 h2 h3 h4 with
                  | None => None
                  | Some uni =>
                      if is_high_surrogate uni then
                        match s3 with
                        | b :: u :: s4 =>
                            if (b =? 92) && (u =? 117) then
                              match s4 with
                              | g1 :: g2 :: g3 :: g4 :: s5 =>
                                  match hex4 g1 g2 g3 g4 with
                                  | None => None
                                  | Some uni2 =>
                                      if is_low_surrogate uni2
                                      then scanstring
                                             (chunks ++ [join_surrogates uni uni2]) s5
                                      else scanstring (chunks ++ [uni]) s3
                                  end
                              | _ => None
                              end
                            else scanstring (chunks ++ [uni]) s3
                        | _ => scanstring (chunks ++ [uni]) s3
                        end
                      else scanstring (chunks ++ [uni]) s3
                  end
              | _ => None
              end
            else
              match backslash esc with
              | Some ch => scanstring (chunks ++ [ch]) s2
              | None => None
              end
        end
      else if c <? 32 then None
      else scanstring (chunks ++ [c]) s1
  end.

(** The longest run of digits at the front. *)
Fixpoint span_digits (s : list N) : list N * list N :=
  match s with
  | [] => ([], [])
  | c :: s' =>
      if is_digit c
      then let '(ds, rest) := span_digits s' in (c :: ds, rest)
      else ([], s)
  end.

(** The three groups of the number pattern and the text after the match:
    an optional minus sign and either a single zero or a digit from one
    to nine followed by any digits; optionally a dot and one digit or
    more; optionally [e] or [E], an optional sign and one digit or
    more.  An optional group that cannot match in full matches nothing. *)
Definition integer_group (s : list N) : option (list N * list N) :=
  let '(sign, s1) :=
    match s with
    | c :: s' => if c =? 45 then ([45], s') else ([], s)
    | [] => ([], s)
    end in
  match s1 with
  | d :: s2 =>
      if d =? 48 then Some (sign ++ [48], s2)
      else if is_digit d then
        let '(ds, rest) := span_digits s2 in Some (sign ++ d :: ds, rest)
      else None
  | [] => None
  end.

Definition frac_group (s : list N) : list N * list N :=
  match s with
  | c :: s1 =>
      if c =? 46 then
        match span_digits s1 with
        | ([], _) => ([], s)
        | (ds, rest) => (46 :: ds, rest)
        end
      else ([], s)
  | [] => ([], s)
  end.

Definition exp_group (s : list N) : list N * list N :=
  match s with
  | e :: s1 =>
      if (e =? 101) || (e =? 69) then
        let '(sign, s2) :=
          match s1 with
          | c :: s' => if (c =? 43) || (c =? 45) then ([c], s') else ([], s1)
          | [] => ([], s1)
          end in
        match span_digits s2 with
        | ([], _) => ([], s)
        | (ds, rest) => (e :: sign ++ ds, rest)
        end
      else ([], s)
  | [] => ([], s)
  end.

Definition match_number (s : list N)
  : option (list N * list N * list N * list N) :=
  '(integer, s1) ← integer_group s;
  let '(frac, s2) := frac_group s1 in
  let '(exp, s3) := exp_group s2 in
  Some (integer, frac, exp, s3).

(** The value of a run of decimal digits. *)
Definition digits_value (ds : list N) : Z :=
  fold_left (fun acc d => (acc * 10 + Z.of_N (d - 48))%Z) ds 0%Z.

(** The interpreter's limit on the digits of an [int] read from text. *)
Definition max_str_digits : nat := 4300.

(** [int(integer)] for the first group of a number. *)
Definition parse_int (integer : list N) : outcome Z :=
  let '(neg, ds) :=
    match integer with
    | c :: ds => if c =? 45 then (true, ds) else (false, integer)
    | [] => (false, integer)
    end in
  if (max_str_digits <? length ds)%nat then Raise ValueError
  else Ret (if neg : bool then (- digits_value ds)%Z else digits_value ds).

(** A scan: a value with the text after it, a failure, or the recursion
    budget of the embedding used up. *)
Inductive scan (A : Type) : Type :=
  | Parsed (a : A) (rest : list N)
  | Failed (e : exn)
  | Exhausted.
Arguments Parsed {A} a rest.
Arguments Failed {A} e.
Arguments Exhausted {A}.

(** The scanner [scan_once], the loop of [JSONArray] entered at its first
    value, and the loop of [JSONObject] entered after the opening quote
    of a key.  The three decrease [fuel] at each call. *)
Fixpoint scan_once (fuel : nat) (s : list N) {struct fuel} : scan json :=
  match fuel with
  | O => Exhausted
  | S fuel' =>
      match s with
      | [] => Failed JSONDecodeError
      | nextchar :: s1 =>
          if nextchar =? 34 then
            match scanstring [] s1 with
            | Some (str, rest) => Parsed (JStr str) rest
            | None => Failed JSONDecodeError
            end
          else if nextchar =? 123 then
            match skip_ws s1 with
            | c :: s2 =>
                if c =? 125 then Parsed (JObj ∅) s2
                else if c =? 34 then JSONObject fuel' ∅ s2
                else Failed JSONDecodeError
            | [] => Failed JSONDecodeError
            end
          else if nextchar =? 91 then
            match skip_ws s1 with
            | c :: s2 =>
                if c =? 93 then Parsed (JArr []) s2
                else JSONArray fuel' [] (c :: s2)
            | [] => Failed JSONDecodeError
            end
          else if starts_with (pystr_of "null") s then
            Parsed JNull (drop 4 s)
          else if starts_with (pystr_of "true") s then
            Parsed (JBool true) (drop 4 s)
          else if starts_with (pystr_of "false") s then
            Parsed (JBool false) (drop 5 s)
          else
            match match_number s with
            | Some (integer, frac, exp, rest) =>
                match frac, exp with
                | [], [] =>
                    match parse_int integer with
                    | Ret n => Parsed (JInt n) rest
                    | Raise e => Failed e
                    end
                | _, _ => Parsed (JFloat (integer ++ frac ++ exp)) rest
                end
            | None =>
                if starts_with (pystr_of "NaN") s then
                  Parsed (JFloat (pystr_of "NaN")) (drop 3 s)
                else if starts_with (pystr_of "Infinity") s then
                  Parsed (JFloat (pystr_of "Infinity")) (drop 8 s)
                else if starts_with (pystr_of "-Infinity") s then
                  Parsed (JFloat (pystr_of "-Infinity")) (drop 9 s)
                else Failed JSONDecodeError
            end
      end
  end

with JSONArray (fuel : nat) (values : list json) (s : list N) {struct fuel}
  : scan json :=
  match fuel with
  | O => Exhausted
  | S fuel' =>
      match scan_once fuel' s with
      | Parsed value rest =>
          match skip_ws rest with
          | c :: s1 =>
              if c =? 93 then Parsed (JArr (values ++ [value])) s1
              else if c =? 44 then
                JSONArray fuel' (values ++ [value]) (skip_ws s1)
              else Failed JSONDecodeError
          | [] => Failed JSONDecodeError
          end
      | Failed e => Failed e
      | Exhausted => Exhausted
      end
  end

with JSONObject (fuel : nat) (pairs : gmap (list N) json) (s : list N)
  {struct fuel} : scan json :=
  match fuel with
  | O => Exhausted
  | S fuel' =>
      match scanstring [] s with
      | None => Failed JSONDecodeError
      | Some (key, rest) =>
          match skip_ws rest with
          | c :: s1 =>
              if c =? 58 then
                match scan_once fuel' (skip_ws s1) with
                | Parsed value rest2 =>
                    match skip_ws rest2 with
                    | c2 :: s2 =>
                        if c2 =? 125 then
                          Parsed (JObj (<[key := value]> pairs)) s2
                        else if c2 =? 44 then
                          match skip_ws s2 with
                          | q :: s3 =>
                              if q =? 34
                              then JSONObject fuel' (<[key := value]> pairs) s3
                              else Failed JSONDecodeError
                          | [] => Failed JSONDecodeError
                          end
                        else Failed JSONDecodeError
                    | [] => Failed JSONDecodeError
                    end
                | Failed e => Failed e
                | Exhausted => Exhausted
                end
              else Failed JSONDecodeError
          | [] => Failed JSONDecodeError
          end
      end
  end.

(** Recursion budget that a text of this length cannot use up. *)
Definition scan_budget (s : list N) : nat := (2 * length s + 1)%nat.

(** [json.loads(s)] for a [str]: no byte order mark, one value between
    optional whitespace, nothing after it.  The scanner is given a
    budget it cannot use up ([scan_budget_enough] below), so the last
    branch is never taken. *)
Definition json_loads (s : list N) : outcome json :=
  if starts_with [65279] s then Raise JSONDecodeError
  else
    let body := skip_ws s in
    match scan_once (scan_budget body) body with
    | Parsed obj rest =>
        match skip_ws rest with
        | [] => Ret obj
        | _ :: _ => Raise JSONDecodeError
        end
    | Failed e => Raise e
    | Exhausted => Raise JSONDecodeError
    end.

Local Close Scope N_scope.

(* ===================================================================== *)
(** * Assessment adapter *)
(* ===================================================================== *)

(** What [model.generate_content(prompt)] followed by [response.text]
    yields: the text, or an exception.  The prompt built before the
    [try] block is the argument of that call; the adapter is modelled
    from the call on. *)
Inductive generation : Type :=
  | Generated (text : list N)
  | GenerationFailed (e : exn).

(** [response.text.replace("```json", "").replace("```", "").strip()],
    with the two fence markers written as Python writes them. *)
Definition without_fences (response_text : list N) : list N :=
  strip (replace (pystr_of "```") []
           (replace (pystr_of "```json") [] response_text)).

(** The result ([None] when absent) and the exceptions shown with
    [st.error]. *)
Definition analyze_with_ai (model_name : option string) (response : generation)
  : option json * list exn :=
  match model_name with
  | None | Some EmptyString => (None, [])
  | Some _ =>
      let attempt : outcome json :=
        match response with
        | GenerationFailed e => Raise e
        | Generated response_text =>
            let text := without_fences response_text in
            json_loads text
        end in
      match attempt with
      | Ret assessment => (Some assessment, [])
      | Raise e => (None, [e])
      end
  end.

(* ===================================================================== *)
(** * Model selection, the analysis run and the tables of the dashboard *)
(* ===================================================================== *)

(** [needle in hay] for two strings. *)
Fixpoint str_contains (needle hay : string) : bool :=
  String.prefix needle hay
  || match hay with
     | EmptyString => false
     | String _ hay' => str_contains needle hay'
     end.

Module genai.

(** A model as [genai.list_models()] yields it. *)
Record Model : Type := mk_Model {
  name : string;
  supported_generation_methods : list string
}.

(** The language-model service during one call of [get_working_model]:
    whether [genai.configure] raises, the models the listing yields, and
    whether the listing raises after them. *)
Record service : Type := mk_service {
  configure_raises : bool;
  listed : list Model;
  listing_raises : bool
}.

End genai.

(** The name returned when the listing offers nothing. *)
Definition fallback_model : string := "models/gemini-1.5-flash".

(** The [for m in genai.list_models()] loop, up to its [return]. *)
Fixpoint first_flash_model (ms : list genai.Model) : option string :=
  match ms with
  | [] => None
  | m :: ms' =>
      if existsb (String.eqb "generateContent")
                 (genai.supported_generation_methods m)
      then if str_contains "flash" (genai.name m) then Some (genai.name m)
           else first_flash_model ms'
      else first_flash_model ms'
  end.

(** The [try] block of [get_working_model]. *)
Definition select_model (svc : genai.service) : outcome string :=
  if genai.configure_raises svc then Raise RequestException
  else
    match first_flash_model (genai.listed svc) with
    | Some n => Ret n
    | None =>
        if genai.listing_raises svc then Raise RequestException
        else Ret fallback_model
    end.

(** [GEMINI_KEY] is the key read at start-up. *)
Definition get_working_model (GEMINI_KEY : option string) (svc : genai.service)
  : option string :=
  match GEMINI_KEY with
  | None | Some EmptyString => None
  | Some _ =>
      match select_model svc with
      | Ret n => Some n
      | Raise _ => Some fallback_model
      end
  end.

(** What the click on the analyse button leads to, before anything is
    drawn: a request for a user name, one of the two error messages, or
    the four values handed to the dashboard. *)
Inductive page : Type :=
  | AskUsername
  | UserNotFound
  | TokenNotConfigured
  | Dashboard (portfolio_score : Q) (dimension_scores : gmap string Q)
              (ai_result : option json) (recommendations : list recommendation).


(** A row of the 'Recent Activity' table. *)
Record activity_row : Type := mk_activity_row {
  row_repository : pyval;
  row_last_updated : datetime;
  row_stars : pyval
}.

(** The loop that fills [repo_updates] from the first ten
    repositories. *)
Fixpoint activity_rows (rs : list (gmap string pyval))
  : outcome (list activity_row) :=
  match rs with
  | [] => Ret []
  | repo :: rs' =>
      stamp ← dict_item repo "pushed_at";
      pushed_at ← strptime stamp;
      name ← dict_item repo "name";
      stars ← dict_item repo "stargazers_count";
      rows ← activity_rows rs';
      Ret (mk_activity_row name pushed_at stars :: rows)
  end.

Definition recent_activity (b : bundle) : outcome (list activity_row) :=
  activity_rows (take 10 (repos b)).

(** An entry of ['repositories'] in the exported report. *)
Record report_row : Type := mk_report_row {
  report_name : pyval;
  report_stars : pyval;
  report_forks : pyval;
  report_doc_score : pyval
}.

(** The comprehension over the first ten repositories of the report. *)
Fixpoint report_rows (rs : list (gmap string pyval))
  : outcome (list report_row) :=
  match rs with
  | [] => Ret []
  | r :: rs' =>
      name ← dict_item r "name";
      stars ← dict_item r "stargazers_count";
      forks ← dict_item r "forks_count";
      doc_score ← dict_item r "doc_score";
      rows ← report_rows rs';
      Ret (mk_report_row name stars forks doc_score :: rows)
  end.

Definition report_repositories (b : bundle) : outcome (list report_row) :=
  report_rows (take 10 (repos b)).

(* ===================================================================== *)
(** * Vocabulary of the specification *)
(* ===================================================================== *)

(** ** Signals of the per-repository scores *)

(** The keys of the five documentation signals. *)
Definition doc_signal_keys : list string :=
  ["readme_exists"; "description"; "homepage"; "has_wiki"; "has_pages"].

(** A count that is present is an [int] (or a [bool]). *)
Definition numeric_field (repo : gmap string pyval) (k : string) : Prop :=
  returns (as_int (dict_get repo k (PInt 0))).

(** [v > 0] as a signal: off when the comparison is not defined. *)
Definition positive (v : pyval) : bool :=
  match py_gt v 0 with
  | Ret b => b
  | Raise _ => false
  end.

(** The five code-quality signals of a repository. *)
Definition has_language (repo : gmap string pyval) : bool :=
  positive (dict_get repo "languages_count" (PInt 0)).
Definition issues_enabled (repo : gmap string pyval) : bool :=
  truthy (dict_get repo "has_issues" (PBool false)).
Definition projects_enabled (repo : gmap string pyval) : bool :=
  truthy (dict_get repo "has_projects" (PBool false)).
Definition nonzero_size (repo : gmap string pyval) : bool :=
  positive (dict_get repo "size" (PInt 0)).
Definition nonzero_stars (repo : gmap string pyval) : bool :=
  positive (dict_get repo "stargazers_count" (PInt 0)).

Definition code_signals (repo : gmap string pyval) : list bool :=
  [has_language repo; issues_enabled repo; projects_enabled repo;
   nonzero_size repo; nonzero_stars repo].

(** How many of the signals are on. *)
Definition signals_on (repo : gmap string pyval) : Z :=
  Z.of_nat (length (filter (fun b : bool => b = true) (code_signals repo))).

(** The three counts read by [calculate_code_quality_score] are numbers. *)
Definition code_fields_numeric (repo : gmap string pyval) : Prop :=
  numeric_field repo "languages_count" /\ numeric_field repo "size"
  /\ numeric_field repo "stargazers_count".

(** The shares the code gives to the five signals. *)
Definition code_quality_points (repo : gmap string pyval) : Z :=
  20 * Z.b2z (has_language repo) + 15 * Z.b2z (issues_enabled repo)
  + 15 * Z.b2z (projects_enabled repo) + 25 * Z.b2z (nonzero_size repo)
  + 25 * Z.b2z (nonzero_stars repo).

(** The three counts read by [calculate_activity_score] are numbers. *)
Definition activity_fields_numeric (repo : gmap string pyval) : Prop :=
  numeric_field repo "open_issues_count" /\ numeric_field repo "forks_count"
  /\ numeric_field repo "watchers_count".

(** The push timestamp of the record, when it parses. *)
Definition pushed_at_of (repo : gmap string pyval) : outcome datetime :=
  strptime (dict_get repo "pushed_at" (PStr "2000-01-01")).

(** ** Invocations of the scoring functions *)

(** The four scoring functions, and an invocation of one of them while
    the clock of the process reads [now]. *)
Inductive scorer : Type := Documentation | CodeQuality | Activity | Portfolio.

Definition scorer_input (f : scorer) : Type :=
  match f with
  | Portfolio => fetch_result
  | _ => gmap string pyval
  end.

Definition scorer_output (f : scorer) : Type :=
  match f with
  | Documentation => Z
  | CodeQuality | Activity => outcome Z
  | Portfolio => outcome (Q * gmap string Q)
  end.

Definition invoke (f : scorer) (now : datetime)
  : scorer_input f -> scorer_output f :=
  match f with
  | Documentation => calculate_documentation_score
  | CodeQuality => calculate_code_quality_score
  | Activity => calculate_activity_score now
  | Portfolio => calculate_portfolio_score
  end.

(** A repository pushed on 5 January 2024 with no issue, fork or watcher,
    and two readings of the clock, three days and five months later. *)
Definition quiet_repo : gmap string pyval :=
  <["pushed_at" := PStr "2024-01-05T10:20:30Z"]> (
  <["open_issues_count" := PInt 0]> (
  <["forks_count" := PInt 0]> (
  <["watchers_count" := PInt 0]> ∅))).

Definition clock_january : datetime := mk_datetime 2024 1 8 12 0 0 0.
Definition clock_june : datetime := mk_datetime 2024 6 1 12 0 0 0.

(** ** Fetch runs *)

(** A repository as the listing endpoint describes it. *)
Definition listed_repo (i : nat) : gmap string pyval :=
  <["id" := PInt (Z.of_nat i)]> (
  <["name" := PStr "project"]> (
  <["full_name" := PStr "octocat/project"]> (
  <["languages_url" := PStr "https://api.github.com/repos/octocat/project/languages"]> (
  <["description" := PStr "A project"]> (
  <["pushed_at" := PStr "2024-01-05T10:20:30Z"]> (
  <["stargazers_count" := PInt 3]> (
  <["forks_count" := PInt 1]> ∅))))))).

(** The page [page] (from 1) of a listing cut in pages of 30. *)
Definition page_of (listing : list (gmap string pyval)) (page : Z)
  : list (gmap string pyval) :=
  take 30 (drop (30 * (Z.to_nat page - 1)) listing).

(** A host on which every call succeeds, for an account with [n]
    repositories. *)
Definition healthy_host (n : nat) : environment := {|
  GITHUB_TOKEN := Some "token";
  clock := fun _ => clock_january;
  get_user := fun _ => Response 200 (Some (PDict (<["login" := PStr "octocat"]> ∅)));
  get_repos := fun _ page =>
    Response 200 (Some (page_of (map listed_repo (seq 0 n)) page));
  get_readme := fun _ => Response 200 (Some "# Project");
  get_languages := fun _ =>
    Response 200 (Some (PDict (<["Python" := PInt 1000]> ∅)));
  get_commit_stats := fun _ => Response 200 (Some (PList []));
  get_orgs := fun _ => Response 200 (Some (PList []))
|}.

(** The same host with other answers for the three enrichment calls. *)
Definition with_enrichment (env : environment)
  (readme : http_result string) (languages stats : http_result pyval)
  : environment := {|
  GITHUB_TOKEN := GITHUB_TOKEN env;
  clock := clock env;
  get_user := get_user env;
  get_repos := get_repos env;
  get_readme := fun _ => readme;
  get_languages := fun _ => languages;
  get_commit_stats := fun _ => stats;
  get_orgs := get_orgs env
|}.

(** The result is a data bundle, not a sentinel. *)
Definition is_bundle (r : fetch_result) : bool :=
  match r with
  | Data _ => true
  | _ => false
  end.

(** The repositories of a result; none for a sentinel. *)
Definition repos_of (r : fetch_result) : list (gmap string pyval) :=
  match r with
  | Data b => repos b
  | _ => []
  end.

(** The same host with other answers for the README and the commit
    statistics of every repository. *)
Definition with_readme_and_stats (env : environment)
  (readme : pyval -> http_result string) (stats : pyval -> http_result pyval)
  : environment := {|
  GITHUB_TOKEN := GITHUB_TOKEN env;
  clock := clock env;
  get_user := get_user env;
  get_repos := get_repos env;
  get_readme := readme;
  get_languages := get_languages env;
  get_commit_stats := stats;
  get_orgs := get_orgs env
|}.

(** Two outcomes of the same kind: both return, or both raise the same
    exception. *)
Definition same_status {A B} (m : outcome A) (m' : outcome B) : Prop :=
  match m, m' with
  | Ret _, Ret _ => True
  | Raise e, Raise e' => e = e'
  | _, _ => False
  end.

(** The keys read by the code-quality and the activity score. *)
Definition code_keys : list string :=
  ["languages_count"; "has_issues"; "has_projects"; "size"; "stargazers_count"].
Definition activity_keys : list string :=
  ["pushed_at"; "open_issues_count"; "forks_count"; "watchers_count"].

(** What the enrichment wrote in a repository of a result. *)
Definition enrichment_of (repo : gmap string pyval)
  : option pyval * option pyval * option pyval * option pyval * option pyval :=
  (repo !! "readme_exists", repo !! "readme_preview", repo !! "languages",
   repo !! "languages_count", repo !! "commit_activity").

(** The bundle fetched for an account with [n] repositories on the
    healthy host. *)
Definition fetched_bundle (n : nat) : bundle :=
  match fst (get_enhanced_github_data (healthy_host n) "octocat") with
  | Data b => b
  | _ => mk_bundle PNone [] PNone
  end.

(** ** Dimensions and weights *)


(** A value between 0 and 100. *)
Definition in_range (x : Q) : Prop := (0 <= x /\ x <= 100)%Q.


(** The six weights as the binary64 numbers their literals denote, in
    the order of the table. *)
Definition weights_binary64 : list PrimFloat.float :=
  [0.20; 0.20; 0.15; 0.15; 0.15; 0.15]%float.


(** ** Qualifying recommendations *)

(** The recommendations of the two portfolio-wide rules, in the order of
    evaluation. *)
Definition portfolio_rules (doc act : Q) : list recommendation :=
  (if Qlt_bool doc 60 then [poor_documentation] else [])
  ++ (if Qlt_bool act 50 then [inconsistent_activity] else []).

(** The [name] of a repository, and whether its two rules fire. *)
Definition name_of (repo : gmap string pyval) : pyval :=
  default PNone (repo !! "name").

Definition lacks_documentation (repo : gmap string pyval) : bool :=
  match py_lt (dict_get repo "doc_score" (PInt 0)) 40 with
  | Ret b => b
  | Raise _ => false
  end.

Definition has_no_impact (repo : gmap string pyval) : bool :=
  py_eq_int (dict_get repo "stargazers_count" (PInt 0)) 0
  && py_eq_int (dict_get repo "forks_count" (PInt 0)) 0.

(** The recommendations of one repository, in the order of evaluation. *)
Definition repo_rules (repo : gmap string pyval) : list recommendation :=
  (if lacks_documentation repo then [missing_documentation (name_of repo)] else [])
  ++ (if has_no_impact repo then [low_impact (name_of repo)] else []).

(** Every qualifying recommendation: the portfolio-wide ones, then those
    of each repository in the order of the bundle. *)
Definition qualifying (b : bundle) (doc act : Q) : list recommendation :=
  portfolio_rules doc act ++ concat (map repo_rules (repos b)).

(** A repository the rules can be evaluated on: it has a [name] and its
    [doc_score], when present, is a number. *)
Definition rules_apply (repo : gmap string pyval) : Prop :=
  is_Some (repo !! "name") /\ numeric_field repo "doc_score".

(** A scored repository for the examples. *)
Definition scored_repo (name : string) (doc_score stars : Z)
  : gmap string pyval :=
  <["name" := PStr name]> (
  <["doc_score" := PInt doc_score]> (
  <["stargazers_count" := PInt stars]> (
  <["forks_count" := PInt 0]> ∅))).

(** Four repositories: the first three documented but without impact,
    the last one popular but undocumented. *)
Definition ranked_bundle : bundle :=
  mk_bundle PNone
    [scored_repo "alpha" 60 0; scored_repo "beta" 60 0;
     scored_repo "gamma" 60 0; scored_repo "delta" 0 9]
    (PList []).

Definition ranked_dimensions : gmap string Q :=
  <["Documentation Quality" := 45%Q]> (<["Activity Consistency" := 30%Q]> ∅).

(** ** Assessments *)

(** A scan that stayed within its budget and consumed some text. *)
Definition within {A} (r : scan A) (s : list N) : Prop :=
  r <> Exhausted
  /\ forall v rest, r = Parsed v rest -> (length rest < length s)%nat.

(** The keys of an assessment. *)
Definition required_fields : list string :=
  ["score"; "verdict"; "role"; "summary"; "skills"; "soft_skills"; "pros";
   "cons"; "interview_questions"; "archive_repos"; "improve_repos"].

(** An object that has every key of an assessment. *)
Definition has_required_fields (j : json) : bool :=
  match j with
  | JObj members =>
      forallb (fun k => bool_decide (is_Some (members !! pystr_of k)))
              required_fields
  | _ => false
  end.

(** A text between quotation marks. *)
Definition quoted (s : string) : list N := [34%N] ++ pystr_of s ++ [34%N].

(** A response that is a JSON object with the score alone. *)
Definition score_only_response : list N :=
  pystr_of "{" ++ quoted "score" ++ pystr_of ": 72}".

(** The same object inside a fenced block. *)
Definition fenced_response : list N :=
  pystr_of "```json" ++ [10%N] ++ score_only_response ++ [10%N]
  ++ pystr_of "```" ++ [10%N].

(** ** Enriched repositories *)

(** The keys written by the enrichment loop. *)
Definition enrichment_keys : list string :=
  ["readme_exists"; "readme_preview"; "languages"; "languages_count";
   "commit_activity"; "doc_score"; "code_score"; "activity_score"].

(** The keys read by the documentation score. *)
Definition doc_keys : list string := doc_signal_keys.

(** The value stored under a key is an integer in a range. *)
Definition int_field_in (repo : gmap string pyval) (k : string) (lo hi : Z)
  : Prop :=
  exists n, repo !! k = Some (PInt n) /\ lo <= n <= hi.

(** The second repository of the bundle fetched for an account with two
    repositories, and the raw record it comes from. *)
Definition second_fetched_repo : gmap string pyval :=
  default ∅ (repos (fetched_bundle 2) !! 1%nat).

(** ** Scored bundles *)

(** The number stored under a key (0 when absent) lies in a range. *)
Definition number_in (repo : gmap string pyval) (k : string) (lo hi : Z)
  : Prop :=
  exists n, as_int (dict_get repo k (PInt 0)) = Ret n /\ lo <= n <= hi.

(** The number stored under a key (0 when absent) is not negative. *)
Definition count_field (repo : gmap string pyval) (k : string) : Prop :=
  exists n, as_int (dict_get repo k (PInt 0)) = Ret n /\ 0 <= n.

(** A repository as the enrichment leaves it when the host answers as
    documented: sub-scores in their ranges, star and fork counts that
    are not negative, and a dictionary of languages. *)
Definition scored (repo : gmap string pyval) : Prop :=
  number_in repo "doc_score" 0 100
  /\ number_in repo "code_score" 0 100
  /\ number_in repo "activity_score" 10 100
  /\ count_field repo "stargazers_count"
  /\ count_field repo "forks_count"
  /\ returns (py_keys (dict_get repo "languages" (PDict ∅))).

(** The names of the six dimensions. *)
Definition dimension_names : list string :=
  ["Documentation Quality"; "Code Structure & Best Practices";
   "Activity Consistency"; "Repository Organization"; "Project Impact";
   "Technical Depth"].

(** A scored repository and a bundle of two of them for the examples. *)
Definition rated_repo (doc code act stars forks : Z) : gmap string pyval :=
  <["doc_score" := PInt doc]> (
  <["code_score" := PInt code]> (
  <["activity_score" := PInt act]> (
  <["stargazers_count" := PInt stars]> (
  <["forks_count" := PInt forks]> (
  <["languages" := PDict (<["Python" := PInt 1000]> ∅)]> ∅))))).

Definition rated_bundle : bundle :=
  mk_bundle PNone [rated_repo 60 45 60 3 1; rated_repo 100 100 100 500 20]
    (PList []).

(** A host whose listing has one repository on page 1 and nothing
    after it. *)
Definition one_page_host : environment := {|
  GITHUB_TOKEN := Some "token";
  clock := fun _ => clock_january;
  get_user := fun _ => Response 200 (Some (PDict ∅));
  get_repos := fun _ page =>
    if page =? 1 then Response 200 (Some [listed_repo 0])
    else Response 200 (Some []);
  get_readme := fun _ => Response 404 None;
  get_languages := fun _ => Response 200 (Some (PDict ∅));
  get_commit_stats := fun _ => Response 202 None;
  get_orgs := fun _ => Response 200 (Some (PList []))
|}.

(** A model that generates content and has this name. *)
Definition generative (n : string) : genai.Model :=
  genai.mk_Model n ["generateContent"; "countTokens"].

(** A service that lists an embedding model, a model without 'flash' in
    its name, and two that have it. *)
Definition sample_service : genai.service :=
  genai.mk_service false
    [genai.mk_Model "models/embedding-001" ["embedContent"];
     generative "models/gemini-1.5-pro";
     generative "models/gemini-2.0-flash";
     generative "models/gemini-1.5-flash-8b"]
    false.

(** A model the loop of [get_working_model] returns on. *)
Definition is_flash (m : genai.Model) : bool :=
  existsb (String.eqb "generateContent") (genai.supported_generation_methods m)
  && str_contains "flash" (genai.name m).


(* ===================================================================== *)
(** * Basic facts about dictionaries and outcomes *)
(* ===================================================================== *)

Lemma dict_get_insert_eq (d : gmap string pyval) k v dflt :
  dict_get (<[k := v]> d) k dflt = v.
Proof. unfold dict_get. by rewrite lookup_insert_eq. Qed.

Lemma dict_get_insert_ne (d : gmap string pyval) k k' v dflt :
  k <> k' -> dict_get (<[k := v]> d) k' dflt = dict_get d k' dflt.
Proof. intros Hne. unfold dict_get. by rewrite lookup_insert_ne. Qed.


Lemma bind_raise {A B} (e : exn) (f : A -> outcome B) : (Raise e ≫= f) = Raise e.
Proof. reflexivity. Qed.

Lemma bind_returns {A B} (m : outcome A) (f : A -> outcome B) b :
  (m ≫= f) = Ret b -> exists a, m = Ret a /\ f a = Ret b.
Proof. destruct m as [a|e]; simpl; [eauto | discriminate]. Qed.

Lemma py_gt_numeric v c : returns (as_int v) -> exists b, py_gt v c = Ret b.
Proof. intros [n Hn]. unfold py_gt. rewrite Hn. simpl. eauto. Qed.

Lemma py_gt_positive v b : py_gt v 0 = Ret b -> positive v = b.
Proof. unfold positive. by intros ->. Qed.

Lemma add_if_bounds c k score :
  0 <= k -> score <= add_if c k score <= score + k.
Proof. destruct c; simpl; lia. Qed.

Lemma add_if_b2z c k score : add_if c k score = score + k * Z.b2z c.
Proof. destruct c; simpl; lia. Qed.

(** Rewrites the lookups of an inserted dictionary. *)
Ltac dict_lookups :=
  repeat first
    [ rewrite dict_get_insert_eq
    | rewrite dict_get_insert_ne by (let H := fresh in intros H; discriminate H) ].

(* ===================================================================== *)
(** * Documentation score *)
(* ===================================================================== *)

Lemma documentation_score_range repo :
  0 <= calculate_documentation_score repo <= 100.
Proof.
  unfold calculate_documentation_score.
  repeat match goal with |- context [add_if ?c _ _] => destruct c; simpl end; lia.
Qed.

(** Scenario A of the specification. *)
Example documentation_score_scenario_A :
  calculate_documentation_score
    (<["readme_exists" := PBool true]> (<["description" := PStr "x"]>
     (<["has_wiki" := PBool false]> (<["has_pages" := PBool false]> ∅)))) = 60.
Proof. reflexivity. Qed.

(** C8: setting one of the five documentation signals ([readme_exists],
    [description], [homepage], [has_wiki], [has_pages]) of a repository
    record to a true value, the other entries unchanged, never lowers
    [calculate_documentation_score]. *)
Theorem documentation_score_monotone (repo : gmap string pyval) k v :
  k ∈ doc_signal_keys -> truthy v = true ->
  calculate_documentation_score repo
  <= calculate_documentation_score (<[k := v]> repo).
Proof.
  intros Hk Hv. unfold doc_signal_keys in Hk.
  repeat (apply elem_of_cons in Hk as [-> | Hk]); [ .. | by apply elem_of_nil in Hk ];
    unfold calculate_documentation_score, dict_get_none; dict_lookups; rewrite Hv;
    repeat match goal with |- context [truthy ?x] => destruct (truthy x) end;
    simpl; lia.
Qed.

Lemma documentation_score_monotone_witness :
  calculate_documentation_score (<["description" := PStr "x"]> ∅)
  <= calculate_documentation_score
       (<["readme_exists" := PBool true]> (<["description" := PStr "x"]> ∅)).
Proof.
  apply (documentation_score_monotone (<["description" := PStr "x"]> ∅)
           "readme_exists" (PBool true)).
  - unfold doc_signal_keys. apply elem_of_cons. left. reflexivity.
  - reflexivity.
Defined.

(* ===================================================================== *)
(** * Code quality score *)
(* ===================================================================== *)

Lemma code_quality_points_range repo : 0 <= code_quality_points repo <= 100.
Proof.
  unfold code_quality_points.
  destruct (has_language repo), (issues_enabled repo), (projects_enabled repo),
    (nonzero_size repo), (nonzero_stars repo); simpl; lia.
Qed.

(** Whenever the function returns, it returns the points of the signals. *)
Lemma code_quality_score_returned repo score :
  calculate_code_quality_score repo = Ret score ->
  score = code_quality_points repo.
Proof.
  unfold calculate_code_quality_score. intros H.
  apply bind_returns in H as (c1 & H1 & H).
  apply bind_returns in H as (c2 & H2 & H).
  apply bind_returns in H as (c3 & H3 & H).
  injection H as <-.
  pose proof (code_quality_points_range repo) as Hr. revert Hr.
  unfold code_quality_points, has_language, nonzero_size, nonzero_stars,
    issues_enabled, projects_enabled.
  rewrite (py_gt_positive _ _ H1), (py_gt_positive _ _ H2), (py_gt_positive _ _ H3).
  rewrite !add_if_b2z. lia.
Qed.

Lemma code_quality_score_total repo :
  code_fields_numeric repo -> returns (calculate_code_quality_score repo).
Proof.
  intros (H1 & H2 & H3). unfold numeric_field in *.
  apply (py_gt_numeric _ 0) in H1 as [c1 H1], H2 as [c2 H2], H3 as [c3 H3].
  unfold calculate_code_quality_score. rewrite H1, H2, H3. simpl. eexists. reflexivity.
Qed.

(** The claim of equal shares fails: a detected language is worth 20 and
    a non-zero size 25, so no single share fits both. *)
Lemma code_quality_shares_not_equal :
  ~ exists share : Z, forall repo : gmap string pyval,
      code_fields_numeric repo ->
      calculate_code_quality_score repo
      = Ret (Z.min 100 (share * signals_on repo)).
Proof.
  intros [share H].
  assert (Hnum : forall k, code_fields_numeric (<[k := PInt 1]> ∅)).
  { intros k. repeat split; unfold numeric_field, dict_get;
      match goal with |- context [<[k := _]> ∅ !! ?j] =>
        destruct (decide (k = j)) as [-> | Hne];
        [ rewrite lookup_insert_eq | rewrite lookup_insert_ne by done ];
        simpl; eexists; reflexivity end. }
  pose proof (H (<["languages_count" := PInt 1]> ∅) (Hnum _)) as H20.
  pose proof (H (<["size" := PInt 1]> ∅) (Hnum _)) as H25.
  vm_compute in H20, H25.
  injection H20 as H20. injection H25 as H25.
  destruct share as [|p|p]; simpl in *; try discriminate; congruence.
Qed.

(** C5 (amended): for every repository record whose counts are numbers,
    [calculate_code_quality_score] returns the sum of the points of the
    signals that are on, 20 for a detected language, 15 for an enabled
    issue tracker, 15 for enabled project boards, 25 for a non-zero size
    and 25 for a non-zero star count; the cap at 100 is reached only when
    all five are on. *)
Theorem code_quality_score_additive (repo : gmap string pyval) :
  code_fields_numeric repo ->
  calculate_code_quality_score repo = Ret (Z.min 100 (code_quality_points repo))
  /\ code_quality_points repo
     = 20 * Z.b2z (has_language repo) + 15 * Z.b2z (issues_enabled repo)
       + 15 * Z.b2z (projects_enabled repo) + 25 * Z.b2z (nonzero_size repo)
       + 25 * Z.b2z (nonzero_stars repo)
  /\ Z.min 100 (code_quality_points repo) = code_quality_points repo
  /\ (code_quality_points repo = 100 <-> signals_on repo = 5).
Proof.
  intros Hnum.
  destruct (code_quality_score_total repo Hnum) as [score Hs].
  pose proof (code_quality_score_returned repo score Hs) as ->.
  pose proof (code_quality_points_range repo) as Hr.
  assert (Hmin : Z.min 100 (code_quality_points repo) = code_quality_points repo) by lia.
  repeat split; try lia.
  - by rewrite Hmin.
  - unfold code_quality_points, signals_on, code_signals.
    destruct (has_language repo), (issues_enabled repo), (projects_enabled repo),
      (nonzero_size repo), (nonzero_stars repo); vm_compute; congruence.
  - unfold code_quality_points, signals_on, code_signals.
    destruct (has_language repo), (issues_enabled repo), (projects_enabled repo),
      (nonzero_size repo), (nonzero_stars repo); vm_compute; congruence.
Qed.

Lemma code_quality_score_additive_witness :
  calculate_code_quality_score
    (<["languages_count" := PInt 2]> (<["has_issues" := PBool true]> ∅))
  = Ret 35.
Proof.
  destruct (code_quality_score_additive
              (<["languages_count" := PInt 2]> (<["has_issues" := PBool true]> ∅)))
    as (H & _).
  - repeat split; eexists; vm_compute; reflexivity.
  - rewrite H. vm_compute. reflexivity.
Defined.

(* ===================================================================== *)
(** * Activity score *)
(* ===================================================================== *)

(** Scenario B of the specification. *)
Example activity_score_scenario_B :
  calculate_activity_score clock_january quiet_repo = Ret 40.
Proof. reflexivity. Qed.

(** A record without [pushed_at] falls back on a text that the format
    does not match. *)
Example activity_score_default_raises now :
  calculate_activity_score now ∅ = Raise ValueError.
Proof. reflexivity. Qed.

Lemma activity_score_returned now repo score :
  calculate_activity_score now repo = Ret score -> 10 <= score <= 100.
Proof.
  unfold calculate_activity_score. intros H.
  apply bind_returns in H as (pushed & _ & H).
  apply bind_returns in H as (c1 & _ & H).
  apply bind_returns in H as (c2 & _ & H).
  apply bind_returns in H as (c3 & _ & H).
  injection H as <-. rewrite !add_if_b2z.
  destruct c1, c2, c3; simpl;
    repeat match goal with |- context [if ?c then _ else _] => destruct c end; lia.
Qed.

Lemma activity_score_total now repo pushed :
  pushed_at_of repo = Ret pushed -> activity_fields_numeric repo ->
  returns (calculate_activity_score now repo).
Proof.
  unfold pushed_at_of. intros Hp (H1 & H2 & H3). unfold numeric_field in *.
  apply (py_gt_numeric _ 0) in H1 as [c1 H1], H2 as [c2 H2], H3 as [c3 H3].
  unfold calculate_activity_score. rewrite Hp, H1, H2, H3. simpl.
  eexists. reflexivity.
Qed.

(** C9: for every repository record whose [pushed_at] parses, whatever
    the clock reads, a score returned by [calculate_activity_score] lies
    between 10 and 100, so it is never 0; and the function does return
    such a score when the three counts of the record are numbers. *)
Theorem activity_score_at_least_10 (now : datetime) (repo : gmap string pyval)
  (pushed : datetime) :
  pushed_at_of repo = Ret pushed ->
  (forall score, calculate_activity_score now repo = Ret score ->
                 10 <= score <= 100 /\ score <> 0)
  /\ (activity_fields_numeric repo ->
      exists score, calculate_activity_score now repo = Ret score
                    /\ 10 <= score <= 100).
Proof.
  intros Hp. split.
  - intros score Hs. apply activity_score_returned in Hs. lia.
  - intros Hnum.
    destruct (activity_score_total now repo pushed Hp Hnum) as [score Hs].
    exists score. split; [done | by eapply activity_score_returned].
Qed.

Lemma activity_score_at_least_10_witness :
  exists score, calculate_activity_score clock_june quiet_repo = Ret score
                /\ 10 <= score <= 100.
Proof.
  apply (activity_score_at_least_10 clock_june quiet_repo
           (mk_datetime 2024 1 5 10 20 30 0)).
  - vm_compute. reflexivity.
  - repeat split; eexists; vm_compute; reflexivity.
Defined.

(* ===================================================================== *)
(** * Purity of the scoring functions *)
(* ===================================================================== *)

(** The activity score of one and the same record changes with the
    clock: 40 three days after the push, 10 five months after it. *)
Lemma activity_score_reads_the_clock :
  invoke Activity clock_january quiet_repo = Ret 40
  /\ invoke Activity clock_june quiet_repo = Ret 10
  /\ invoke Activity clock_january quiet_repo
     <> invoke Activity clock_june quiet_repo.
Proof. repeat split; try reflexivity. vm_compute. discriminate. Qed.

(** C3 (amended): [calculate_documentation_score],
    [calculate_code_quality_score] and [calculate_portfolio_score] return
    the same result on the same input whatever the clock reads;
    [calculate_activity_score] reads the clock, and two invocations on
    the same record return the same result when the two readings are the
    same number of whole days after the push. *)
Theorem scoring_determinism :
  (forall f, f <> Activity ->
     forall (now1 now2 : datetime) (x : scorer_input f),
       invoke f now1 x = invoke f now2 x)
  /\ (forall (now1 now2 : datetime) (repo : gmap string pyval),
        (forall pushed, pushed_at_of repo = Ret pushed ->
                        timedelta_days now1 pushed = timedelta_days now2 pushed) ->
        invoke Activity now1 repo = invoke Activity now2 repo).
Proof.
  split.
  - intros f Hf now1 now2 x. destruct f; try reflexivity. by destruct Hf.
  - intros now1 now2 repo Hdays. simpl. unfold calculate_activity_score.
    unfold pushed_at_of in Hdays.
    destruct (strptime (dict_get repo "pushed_at" (PStr "2000-01-01")))
      as [pushed|e]; [|reflexivity].
    simpl. by rewrite (Hdays pushed eq_refl).
Qed.

Lemma scoring_determinism_witness :
  invoke Documentation clock_january quiet_repo
  = invoke Documentation clock_june quiet_repo
  /\ invoke Activity clock_january quiet_repo
     = invoke Activity (mk_datetime 2024 1 9 9 0 0 0) quiet_repo.
Proof.
  destruct scoring_determinism as [Hpure Hdays]. split.
  - apply (Hpure Documentation). discriminate.
  - apply (Hdays clock_january (mk_datetime 2024 1 9 9 0 0 0) quiet_repo).
    intros pushed Hp. vm_compute in Hp. injection Hp as <-.
    vm_compute. reflexivity.
Defined.

(* ===================================================================== *)
(** * Data fetcher: pagination *)
(* ===================================================================== *)

(** One turn of the page loop. *)
Lemma fetch_repo_pages_unfolded env username page acc :
  fetch_repo_pages env username page acc =
  if decide (length acc < 50)%nat then
    match get_repos env username page with
    | ConnectionFailed => Raise RequestException
    | Response status body =>
        if status =? 200 then
          match body with
          | None => Raise JSONDecodeError
          | Some [] => Ret acc
          | Some (r :: rs) =>
              fetch_repo_pages env username (page + 1) (acc ++ r :: rs)
          end
        else Ret acc
    end
  else Ret acc.
Proof.
  funelim (fetch_repo_pages env username page acc); try clear Heqcall;
    destruct (decide (length acc < 50)%nat); try lia;
    repeat match goal with
           | H : get_repos _ _ _ = _ |- _ => rewrite H; clear H
           | H : (_ =? _) = _ |- _ => rewrite H; clear H
           end; reflexivity.
Qed.

(** No page is requested once 50 repositories are accumulated. *)
Lemma fetch_repo_pages_stops_at_cap env username page acc :
  (50 <= length acc)%nat -> fetch_repo_pages env username page acc = Ret acc.
Proof.
  intros Hlen. rewrite fetch_repo_pages_unfolded. case_decide; [lia | done].
Qed.

(** No page is requested after an empty one. *)
Lemma fetch_repo_pages_stops_at_empty_page env username page acc :
  get_repos env username page = Response 200 (Some []) ->
  fetch_repo_pages env username page acc = Ret acc.
Proof.
  intros Hpage. rewrite fetch_repo_pages_unfolded, Hpage. by case_decide.
Qed.

(** The loop depends on the host through the listing endpoint only. *)
Lemma fetch_repo_pages_ext env env' username :
  (forall page, get_repos env username page = get_repos env' username page) ->
  forall page acc,
    fetch_repo_pages env username page acc
    = fetch_repo_pages env' username page acc.
Proof.
  intros Hsame page acc.
  remember (50 - length acc)%nat as m eqn:Hm.
  revert page acc Hm. induction m as [m IH] using lt_wf_ind. intros page acc ->.
  rewrite (fetch_repo_pages_unfolded env), (fetch_repo_pages_unfolded env'), Hsame.
  case_decide; [|done].
  destruct (get_repos env' username page) as [|status [[|r rs]|]]; try done.
  destruct (status =? 200); [|done].
  eapply IH; [|reflexivity]. rewrite length_app. simpl. lia.
Qed.

(** With pages of at most [n] repositories the loop returns fewer than
    [50 + n] of them. *)
Lemma fetch_repo_pages_bound env username (n : nat) :
  (forall page rs, get_repos env username page = Response 200 (Some rs) ->
                   (length rs <= n)%nat) ->
  forall page acc rs,
    fetch_repo_pages env username page acc = Ret rs ->
    (length rs <= Nat.max (length acc) (49 + n))%nat.
Proof.
  intros Hpages page acc.
  remember (50 - length acc)%nat as m eqn:Hm.
  revert page acc Hm. induction m as [m IH] using lt_wf_ind. intros page acc -> rs.
  rewrite fetch_repo_pages_unfolded. case_decide as Hlt.
  2: { intros [= <-]. lia. }
  destruct (get_repos env username page) as [|status [[|r rs']|]] eqn:Hpage;
    try discriminate.
  - destruct (status =? 200); intros [= <-]; lia.
  - destruct (status =? 200) eqn:Hs; [|intros [= <-]; lia].
    apply Z.eqb_eq in Hs as ->. apply Hpages in Hpage. simpl in Hpage.
    intros Hrec. eapply IH in Hrec; [| |reflexivity].
    + rewrite length_app in Hrec. simpl in Hrec. lia.
    + rewrite length_app. simpl. lia.
  - destruct (status =? 200); [discriminate | intros [= <-]; lia].
Qed.

Lemma enhance_repos_length env tick rs rs' :
  enhance_repos env tick rs = Ret rs' -> length rs' = length rs.
Proof.
  revert tick rs'. induction rs as [|repo rs IH]; intros tick rs' H; simpl in H.
  - by injection H as <-.
  - apply bind_returns in H as (repo' & _ & H).
    apply bind_returns in H as (rest & Hrest & H).
    injection H as <-. simpl. f_equal. by eapply IH.
Qed.

(** C4: with two full pages of 30 repositories the loop has accumulated
    60 of them when it stops, and all 60 are in the returned bundle,
    above the 50 that the claim and the comment of the loop announce. *)
Theorem fetch_returns_sixty_repositories :
  is_bundle (fst (get_enhanced_github_data (healthy_host 75) "octocat")) = true
  /\ length (repos_of (fst (get_enhanced_github_data (healthy_host 75) "octocat")))
     = 60%nat
  /\ fetch_repo_pages (healthy_host 75) "octocat" 3
       (page_of (map listed_repo (seq 0 75)) 1
        ++ page_of (map listed_repo (seq 0 75)) 2)
     = Ret (page_of (map listed_repo (seq 0 75)) 1
            ++ page_of (map listed_repo (seq 0 75)) 2).
Proof.
  split; [|split].
  - vm_compute. reflexivity.
  - vm_compute. reflexivity.
  - apply fetch_repo_pages_stops_at_cap. vm_compute. lia.
Qed.

(* ===================================================================== *)
(** * Data fetcher: enrichment failures *)
(* ===================================================================== *)

Lemma dict_get_ext (d d' : gmap string pyval) k dflt :
  d !! k = d' !! k -> dict_get d k dflt = dict_get d' k dflt.
Proof. unfold dict_get. by intros ->. Qed.

Lemma code_quality_score_ext (repo repo' : gmap string pyval) :
  (forall k, k ∈ code_keys -> repo !! k = repo' !! k) ->
  calculate_code_quality_score repo = calculate_code_quality_score repo'.
Proof.
  intros H. unfold calculate_code_quality_score.
  rewrite !(dict_get_ext repo repo') by (apply H; unfold code_keys; set_solver).
  reflexivity.
Qed.

Lemma activity_score_ext now (repo repo' : gmap string pyval) :
  (forall k, k ∈ activity_keys -> repo !! k = repo' !! k) ->
  calculate_activity_score now repo = calculate_activity_score now repo'.
Proof.
  intros H. unfold calculate_activity_score.
  rewrite !(dict_get_ext repo repo') by (apply H; unfold activity_keys; set_solver).
  reflexivity.
Qed.

(** Looks a concrete key up through a chain of insertions. *)
Ltac insert_lookups :=
  repeat first
    [ rewrite lookup_insert_eq
    | rewrite lookup_insert_ne by (let H := fresh in intros H; discriminate H) ].

(** The README and the commit statistics never decide whether the
    enrichment of a repository completes. *)
Lemma enhance_repo_readme_stats env readme stats tick repo :
  same_status (enhance_repo env tick repo)
              (enhance_repo (with_readme_and_stats env readme stats) tick repo).
Proof.
  unfold enhance_repo.
  destruct (dict_item repo "full_name") as [full_name|e]; simpl; [|done].
  generalize (get_readme_content env full_name)
             (get_readme_content (with_readme_and_stats env readme stats) full_name)
             (get_commit_activity env full_name)
             (get_commit_activity (with_readme_and_stats env readme stats) full_name).
  intros r r' c c'.
  unfold dict_item. insert_lookups.
  destruct (repo !! "languages_url") as [lang_url|]; simpl; [|done].
  destruct (requests_get (get_languages env lang_url)) as [[status body]|e];
    simpl; [|done].
  destruct (if status =? 200 then json_of body else Ret (PDict ∅))
    as [languages|e]; simpl; [|done].
  destruct (py_len languages) as [n|e]; simpl; [|done].
  match goal with
  | |- same_status (calculate_code_quality_score ?a ≫= _)
                   (calculate_code_quality_score ?b ≫= _) =>
      rewrite (code_quality_score_ext a b)
  end.
  2: { intros k Hk. unfold code_keys in Hk.
       repeat (apply elem_of_cons in Hk as [-> | Hk]);
         [ .. | by apply elem_of_nil in Hk ]; insert_lookups; reflexivity. }
  match goal with
  | |- same_status (?m ≫= _) _ => destruct m as [code|e]; simpl; [|done]
  end.
  match goal with
  | |- same_status (calculate_activity_score _ ?a ≫= _)
                   (calculate_activity_score _ ?b ≫= _) =>
      rewrite (activity_score_ext (clock env tick) a b)
  end.
  2: { intros k Hk. unfold activity_keys in Hk.
       repeat (apply elem_of_cons in Hk as [-> | Hk]);
         [ .. | by apply elem_of_nil in Hk ]; insert_lookups; reflexivity. }
  match goal with
  | |- same_status (?m ≫= _) _ => destruct m as [act|e]; simpl; done
  end.
Qed.

Lemma enhance_repos_readme_stats env readme stats rs : forall tick,
  same_status (enhance_repos env tick rs)
              (enhance_repos (with_readme_and_stats env readme stats) tick rs).
Proof.
  induction rs as [|repo rs IH]; intros tick; simpl; [done|].
  pose proof (enhance_repo_readme_stats env readme stats tick repo) as Hrepo.
  destruct (enhance_repo env tick repo) as [repo1|e],
    (enhance_repo (with_readme_and_stats env readme stats) tick repo) as [repo2|e'];
    simpl in *; try done.
  specialize (IH (S tick)).
  destruct (enhance_repos env (S tick) rs) as [rest1|e],
    (enhance_repos (with_readme_and_stats env readme stats) (S tick) rs)
      as [rest2|e']; simpl in *; done.
Qed.

(** Whatever the README and commit-statistics calls do, the fetch returns
    a bundle in exactly the same runs, and reports the same errors. *)
Lemma fetch_tolerates_readme_and_stats env readme stats username :
  is_bundle (fst (get_enhanced_github_data
                    (with_readme_and_stats env readme stats) username))
  = is_bundle (fst (get_enhanced_github_data env username))
  /\ snd (get_enhanced_github_data
            (with_readme_and_stats env readme stats) username)
     = snd (get_enhanced_github_data env username).
Proof.
  unfold get_enhanced_github_data. simpl.
  destruct (GITHUB_TOKEN env) as [[|c token]|]; [done| |done].
  unfold fetch_body. simpl.
  destruct (requests_get (get_user env username)) as [[status body]|e];
    simpl; [|done].
  destruct (status =? 200); simpl; [|done].
  destruct (json_of body) as [user_data|e]; simpl; [|done].
  rewrite <- (fetch_repo_pages_ext env (with_readme_and_stats env readme stats))
    by done.
  destruct (fetch_repo_pages env username 1 []) as [rs|e]; simpl; [|done].
  pose proof (enhance_repos_readme_stats env readme stats rs 0%nat) as Hrs.
  destruct (enhance_repos env 0 rs) as [rs1|e],
    (enhance_repos (with_readme_and_stats env readme stats) 0 rs) as [rs2|e'];
    simpl in *; try done; [|by subst].
  destruct (requests_get (get_orgs env username)) as [[ostatus obody]|e];
    simpl; [|done].
  destruct (if ostatus =? 200 then json_of obody else Ret (PList []))
    as [orgs|e]; simpl; done.
Qed.

(** The three enrichment calls failing the ways the fetcher tolerates:
    the fields are empty and the bundle is returned. *)
Example enrichment_degrades :
  map enrichment_of
    (repos_of (fst (get_enhanced_github_data
       (with_enrichment (healthy_host 1)
          ConnectionFailed (Response 500 None) ConnectionFailed) "octocat")))
  = [(Some (PBool false), Some PNone, Some (PDict ∅), Some (PInt 0), Some PNone)].
Proof. vm_compute. reflexivity. Qed.

(** C2: when the request for the languages of a repository raises, or
    its body does not decode, the fetch returns the failure sentinel,
    although the same account is fetched in full when the call succeeds
    and a failing README or commit-statistics call is tolerated. *)
Theorem languages_exception_aborts_fetch :
  get_enhanced_github_data
    (with_enrichment (healthy_host 1)
       (Response 200 (Some "# Project")) ConnectionFailed
       (Response 200 (Some (PList [])))) "octocat"
  = (ERROR, [RequestException])
  /\ get_enhanced_github_data
       (with_enrichment (healthy_host 1)
          (Response 200 (Some "# Project")) (Response 200 None)
          (Response 200 (Some (PList [])))) "octocat"
     = (ERROR, [JSONDecodeError])
  /\ is_bundle (fst (get_enhanced_github_data (healthy_host 1) "octocat")) = true
  /\ is_bundle (fst (get_enhanced_github_data
                       (with_enrichment (healthy_host 1)
                          ConnectionFailed
                          (Response 200 (Some (PDict ∅)))
                          ConnectionFailed) "octocat")) = true.
Proof. repeat split; vm_compute; reflexivity. Qed.

(* ===================================================================== *)
(** * Portfolio score *)
(* ===================================================================== *)

Lemma round1_lower (a : Z) (x : Q) : (a # 10 <= x -> a # 10 <= round1 x)%Q.
Proof.
  destruct x as [n d]. unfold round1. cbn [Qnum Qden]. intros H.
  rewrite Qred_correct. unfold Qle in *. cbn [Qnum Qden] in *.
  assert (Ha : a <= n * 10 / Z.pos d).
  { apply Z.div_le_lower_bound; lia. }
  repeat match goal with |- context [if ?c then _ else _] => destruct c end; lia.
Qed.

Lemma round1_upper (b : Z) (x : Q) : (x <= b # 10 -> round1 x <= b # 10)%Q.
Proof.
  destruct x as [n d]. unfold round1. cbn [Qnum Qden]. intros H.
  rewrite Qred_correct. unfold Qle in *. cbn [Qnum Qden] in *.
  pose proof (Z.div_mod (n * 10) (Z.pos d) ltac:(lia)) as Hdm.
  pose proof (Z.mod_pos_bound (n * 10) (Z.pos d) ltac:(lia)) as Hr.
  set (f := n * 10 / Z.pos d) in *. set (r := (n * 10) mod Z.pos d) in *.
  assert (Hf : f <= b) by nia.
  assert (Hf1 : 0 < r -> f + 1 <= b) by nia.
  destruct (2 * r <? Z.pos d) eqn:E1; [lia|].
  apply Z.ltb_ge in E1.
  assert (0 < r) by lia.
  repeat match goal with |- context [if ?c then _ else _] => destruct c end;
    specialize (Hf1 ltac:(lia)); lia.
Qed.

Lemma round1_in_range x : in_range x -> in_range (round1 x).
Proof.
  intros [H0 H100]. split.
  - assert (E : (0 # 10 == 0)%Q) by reflexivity.
    rewrite <- E. apply round1_lower. by rewrite E.
  - assert (E : (1000 # 10 == 100)%Q) by reflexivity.
    rewrite <- E. apply round1_upper. by rewrite E.
Qed.

(** [round] leaves an [int] as it is. *)
Lemma round1_int (n : Z) : (round1 (inject_Z n) == inject_Z n)%Q.
Proof.
  unfold round1, inject_Z. cbn [Qnum Qden]. rewrite Qred_correct.
  rewrite Z.div_1_r, Z.mod_1_r. simpl (2 * 0 <? 1). cbv iota.
  unfold Qeq. simpl. lia.
Qed.

Lemma weight_values :
  weight "documentation" = (20 # 100)%Q /\ weight "code_quality" = (20 # 100)%Q
  /\ weight "activity" = (15 # 100)%Q /\ weight "organization" = (15 # 100)%Q
  /\ weight "impact" = (15 # 100)%Q /\ weight "technical_depth" = (15 # 100)%Q.
Proof. repeat split; reflexivity. Qed.



(** In binary64 too the six weights add up to exactly 1, and the
    weighted sum of six dimensions at 100 is exactly 100. *)
Example weights_sum_binary64 :
  fold_left PrimFloat.add weights_binary64 0%float = 1%float
  /\ fold_left PrimFloat.add (map (PrimFloat.mul 100) weights_binary64) 0%float
     = 100%float.
Proof. split; vm_compute; reflexivity. Qed.

(** Scenario C of the specification. *)
Example portfolio_score_no_repositories user orgs :
  calculate_portfolio_score (Data (mk_bundle user [] orgs)) = Ret (0%Q, ∅).
Proof. reflexivity. Qed.




Lemma org_score_range b : 0 <= org_score_of b <= 60.
Proof.
  unfold org_score_of.
  repeat match goal with |- context [add_if ?c _ _] => destruct c; simpl end; lia.
Qed.

Lemma compute_dimensions_org_tech b ds :
  compute_dimensions b = Ret ds ->
  (exists o, org_dim ds = inject_Z o /\ 0 <= o <= 60)
  /\ (exists t, tech_dim ds = inject_Z t /\ 0 <= t <= 40).
Proof.
  unfold compute_dimensions. intros H.
  repeat (apply bind_returns in H as (? & _ & H)).
  injection H as <-. cbn [org_dim tech_dim]. split.
  - eexists. split; [reflexivity | apply org_score_range].
  - eexists. split; [reflexivity | lia].
Qed.

(** C10: in every non-empty dimension map returned by
    [calculate_portfolio_score], 'Repository Organization' is at most 60
    and 'Technical Depth' is at most 40. *)
Theorem organization_and_depth_capped (data : fetch_result) (score : Q)
  (dims : gmap string Q) :
  calculate_portfolio_score data = Ret (score, dims) -> dims <> ∅ ->
  exists o t,
    dims !! "Repository Organization" = Some o
    /\ dims !! "Technical Depth" = Some t
    /\ (0 <= o /\ o <= 60)%Q /\ (0 <= t /\ t <= 40)%Q.
Proof.
  intros H Hne. unfold calculate_portfolio_score in H.
  destruct data as [| |b]; try (injection H as _ <-; by destruct Hne).
  destruct (repos b) as [|r rs]; [injection H as _ <-; by destruct Hne|].
  apply bind_returns in H as (ds & Hds & H). injection H as _ <-.
  apply compute_dimensions_org_tech in Hds as ((o & Ho & Hor) & (t & Ht & Htr)).
  exists (round1 (org_dim ds)), (round1 (tech_dim ds)).
  split; [unfold dimension_map; insert_lookups; reflexivity|].
  split; [unfold dimension_map; insert_lookups; reflexivity|].
  rewrite Ho, Ht, !round1_int. unfold Qle, inject_Z. simpl. lia.
Qed.

Lemma organization_and_depth_capped_witness :
  exists o t,
    dimension_map (mk_dimensions (180 # 3) (135 # 3) (180 # 3) 20 (21 # 5) 8)
      !! "Repository Organization" = Some o
    /\ dimension_map (mk_dimensions (180 # 3) (135 # 3) (180 # 3) 20 (21 # 5) 8)
         !! "Technical Depth" = Some t
    /\ (0 <= o /\ o <= 60)%Q /\ (0 <= t /\ t <= 40)%Q.
Proof.
  apply (organization_and_depth_capped (Data (fetched_bundle 3)) (174 # 5)).
  - vm_compute. reflexivity.
  - intros H. apply (f_equal (fun m : gmap string Q => m !! "Technical Depth")) in H.
    vm_compute in H. discriminate H.
Defined.

(* ===================================================================== *)
(** * Recommendations *)
(* ===================================================================== *)

Lemma recommend_repo_rules repo recommendations :
  rules_apply repo ->
  recommend_repo repo recommendations = Ret (recommendations ++ repo_rules repo).
Proof.
  intros [[name Hname] [n Hn]].
  unfold recommend_repo, repo_rules, lacks_documentation, has_no_impact,
    name_of, dict_item, py_lt.
  rewrite Hname, Hn. simpl.
  destruct (n <? 40); simpl;
    destruct (py_eq_int (dict_get repo "stargazers_count" (PInt 0)) 0
              && py_eq_int (dict_get repo "forks_count" (PInt 0)) 0); simpl;
    by rewrite <- ?app_assoc, ?app_nil_r.
Qed.

Lemma recommend_repos_rules rs : forall recommendations,
  Forall rules_apply rs ->
  recommend_repos rs recommendations
  = Ret (recommendations ++ concat (map repo_rules rs)).
Proof.
  induction rs as [|repo rs IH]; intros recommendations Hall; simpl.
  - by rewrite app_nil_r.
  - inversion Hall as [|? ? Hrepo Hrest]; subst.
    rewrite (recommend_repo_rules _ _ Hrepo). simpl.
    rewrite (IH _ Hrest). by rewrite <- app_assoc.
Qed.

Lemma recommendations_at_most_five data dimension_scores recs :
  get_actionable_recommendations data dimension_scores = Ret recs ->
  (length recs <= 5)%nat.
Proof.
  unfold get_actionable_recommendations. intros H.
  repeat (apply bind_returns in H as (? & _ & H)).
  injection H as <-. rewrite length_take. lia.
Qed.

(** Without the two dimension keys, as in the empty map of an account
    without repositories, the function raises and returns nothing. *)
Example recommendations_need_dimensions data :
  get_actionable_recommendations data ∅
  = Raise (KeyError "Documentation Quality").
Proof. reflexivity. Qed.

(** C7: [get_actionable_recommendations] never returns more than five
    recommendations; on a bundle whose repositories are named and scored
    it returns the first five of the qualifying recommendations taken in
    the order of evaluation, the portfolio-wide rules first and then the
    rules of each repository in the order of the bundle; and the cut is
    not by severity: with six qualifying recommendations the one of high
    priority that comes last is dropped while four of medium priority
    are kept. *)
Theorem recommendations_first_five :
  (forall data dimension_scores recs,
     get_actionable_recommendations data dimension_scores = Ret recs ->
     (length recs <= 5)%nat)
  /\ (forall b (dimension_scores : gmap string Q) doc act,
        dimension_scores !! "Documentation Quality" = Some doc ->
        dimension_scores !! "Activity Consistency" = Some act ->
        Forall rules_apply (repos b) ->
        get_actionable_recommendations (Data b) dimension_scores
        = Ret (take 5 (qualifying b doc act))
        /\ ((5 < length (qualifying b doc act))%nat ->
            length (take 5 (qualifying b doc act)) = 5%nat))
  /\ (qualifying ranked_bundle 45 30
      = [poor_documentation; inconsistent_activity;
         low_impact (PStr "alpha"); low_impact (PStr "beta");
         low_impact (PStr "gamma"); missing_documentation (PStr "delta")]
      /\ get_actionable_recommendations (Data ranked_bundle) ranked_dimensions
         = Ret [poor_documentation; inconsistent_activity;
                low_impact (PStr "alpha"); low_impact (PStr "beta");
                low_impact (PStr "gamma")]
      /\ rec_priority (missing_documentation (PStr "delta")) = "High"
      /\ rec_priority (low_impact (PStr "gamma")) = "Medium").
Proof.
  split; [|split].
  - apply recommendations_at_most_five.
  - intros b dimension_scores doc act Hdoc Hact Hall. split.
    + unfold get_actionable_recommendations, dimension_item, qualifying,
        portfolio_rules.
      rewrite Hdoc, Hact. simpl.
      rewrite (recommend_repos_rules _ _ Hall). simpl.
      by destruct (Qlt_bool doc 60), (Qlt_bool act 50).
    + intros Hlen. rewrite length_take. lia.
  - repeat split; vm_compute; reflexivity.
Qed.

Lemma recommendations_first_five_witness :
  get_actionable_recommendations (Data ranked_bundle) ranked_dimensions
  = Ret (take 5 (qualifying ranked_bundle 45 30)).
Proof.
  destruct recommendations_first_five as (_ & H & _).
  apply (H ranked_bundle ranked_dimensions 45%Q 30%Q).
  - vm_compute. reflexivity.
  - vm_compute. reflexivity.
  - repeat constructor; try (eexists; vm_compute; reflexivity).
Defined.

(* ===================================================================== *)
(** * The decoder terminates within its budget *)
(* ===================================================================== *)

Lemma skip_ws_length s : (length (skip_ws s) <= length s)%nat.
Proof. induction s as [|c s IH]; simpl; [lia|]. destruct (is_ws c); simpl; lia. Qed.

Lemma skip_ws_cons s c s' : skip_ws s = c :: s' -> (length s' < length s)%nat.
Proof.
  intros H. pose proof (skip_ws_length s) as Hl. rewrite H in Hl.
  simpl in Hl. lia.
Qed.

Lemma span_digits_length s ds rest :
  span_digits s = (ds, rest) -> (length rest <= length s)%nat.
Proof.
  revert ds rest. induction s as [|c s IH]; intros ds rest; simpl.
  - intros [= <- <-]. simpl. lia.
  - destruct (is_digit c).
    + destruct (span_digits s) as [ds' rest'] eqn:E. intros [= <- <-].
      specialize (IH _ _ eq_refl). lia.
    + intros [= <- <-]. simpl. lia.
Qed.

Lemma scanstring_length : forall s chunks str rest,
  scanstring chunks s = Some (str, rest) -> (length rest < length s)%nat.
Proof.
  intros s. remember (length s) as n eqn:Hn. revert s Hn.
  induction n as [n IH] using lt_wf_ind. intros s -> chunks str rest.
  assert (IH' : forall s' chunks',
             (length s' < length s)%nat ->
             scanstring chunks' s' = Some (str, rest) ->
             (length rest < length s)%nat).
  { intros s' chunks' Hlt H. eapply IH in H; [|exact Hlt|reflexivity]. lia. }
  clear IH. destruct s as [|c s1]; simpl; [discriminate|].
  destruct (c =? 34)%N; [intros [= <- <-]; simpl; lia|].
  destruct (c =? 92)%N.
  - destruct s1 as [|esc s2]; [discriminate|].
    destruct (esc =? 117)%N.
    + destruct s2 as [|h1 [|h2 [|h3 [|h4 s3]]]]; try discriminate.
      destruct (hex4 h1 h2 h3 h4) as [uni|]; [|discriminate].
      destruct (is_high_surrogate uni).
      * destruct s3 as [|b [|u s4]]; try (apply IH'; simpl; lia).
        destruct ((b =? 92)%N && (u =? 117)%N); [|apply IH'; simpl; lia].
        destruct s4 as [|g1 [|g2 [|g3 [|g4 s5]]]]; try discriminate.
        destruct (hex4 g1 g2 g3 g4) as [uni2|]; [|discriminate].
        destruct (is_low_surrogate uni2); apply IH'; simpl; lia.
      * apply IH'. simpl. lia.
    + destruct (backslash esc); [|discriminate]. apply IH'. simpl. lia.
  - destruct (c <? 32)%N; [discriminate|]. apply IH'. simpl. lia.
Qed.

Lemma integer_group_length s integer rest :
  integer_group s = Some (integer, rest) -> (length rest < length s)%nat.
Proof.
  unfold integer_group.
  destruct s as [|c s']; [discriminate|].
  destruct (c =? 45)%N.
  - destruct s' as [|d s2]; [discriminate|].
    destruct (d =? 48)%N; [intros [= <- <-]; simpl; lia|].
    destruct (is_digit d); [|discriminate].
    destruct (span_digits s2) as [ds r] eqn:E. intros [= <- <-].
    apply span_digits_length in E. simpl. lia.
  - destruct (c =? 48)%N; [intros [= <- <-]; simpl; lia|].
    destruct (is_digit c); [|discriminate].
    destruct (span_digits s') as [ds r] eqn:E. intros [= <- <-].
    apply span_digits_length in E. simpl. lia.
Qed.

Lemma frac_group_length s frac rest :
  frac_group s = (frac, rest) -> (length rest <= length s)%nat.
Proof.
  unfold frac_group. destruct s as [|c s1]; [intros [= <- <-]; lia|].
  destruct (c =? 46)%N; [|intros [= <- <-]; simpl; lia].
  destruct (span_digits s1) as [[|d ds] r] eqn:E; intros [= <- <-]; [simpl; lia|].
  apply span_digits_length in E. simpl. lia.
Qed.

Lemma exp_group_length s exp rest :
  exp_group s = (exp, rest) -> (length rest <= length s)%nat.
Proof.
  unfold exp_group. destruct s as [|e s1]; [intros [= <- <-]; lia|].
  destruct ((e =? 101)%N || (e =? 69)%N); [|intros [= <- <-]; simpl; lia].
  destruct s1 as [|c s'].
  - simpl. intros [= <- <-]. simpl. lia.
  - destruct ((c =? 43)%N || (c =? 45)%N).
    + destruct (span_digits s') as [[|d ds] r] eqn:E; intros [= <- <-]; [simpl; lia|].
      apply span_digits_length in E. simpl. lia.
    + destruct (span_digits (c :: s')) as [[|d ds] r] eqn:E; intros [= <- <-];
        [simpl; lia|].
      apply span_digits_length in E. simpl in *. lia.
Qed.

Lemma match_number_length s integer frac exp rest :
  match_number s = Some (integer, frac, exp, rest) ->
  (length rest < length s)%nat.
Proof.
  unfold match_number.
  destruct (integer_group s) as [[i s1]|] eqn:Ei; [|discriminate]. simpl.
  destruct (frac_group s1) as [f s2] eqn:Ef.
  destruct (exp_group s2) as [e s3] eqn:Ee. intros [= <- <- <- <-].
  apply integer_group_length in Ei. apply frac_group_length in Ef.
  apply exp_group_length in Ee. lia.
Qed.

Lemma within_failed {A} e s : within (@Failed A e) s.
Proof. split; [discriminate | intros v rest [=]]. Qed.

Lemma within_parsed {A} (a : A) rest s :
  (length rest < length s)%nat -> within (Parsed a rest) s.
Proof. intros H. split; [discriminate | by intros v r [= <- <-]]. Qed.

Lemma within_shorter {A} (r : scan A) s s' :
  (length s' <= length s)%nat -> within r s' -> within r s.
Proof.
  intros Hlen [Hne Hrest]. split; [done|].
  intros v rest Hr. specialize (Hrest v rest Hr). lia.
Qed.

Lemma length_drop_cons (k : nat) (c : N) (s : list N) :
  (length (drop (S k) (c :: s)) < length (c :: s))%nat.
Proof. rewrite length_drop. simpl. lia. Qed.

(** With a budget above twice the length of the text no scan runs out
    of budget, and a scan that succeeds leaves a shorter text. *)
Lemma scan_budget_enough : forall fuel,
  (forall s, (2 * length s < fuel)%nat -> within (scan_once fuel s) s)
  /\ (forall values s, (2 * length s + 1 < fuel)%nat ->
                       within (JSONArray fuel values s) s)
  /\ (forall pairs s, (2 * length s < fuel)%nat ->
                      within (JSONObject fuel pairs s) s).
Proof.
  induction fuel as [|fuel (IHscan & IHarr & IHobj)].
  { repeat split; intros; lia. }
  split; [|split].
  - intros s Hfuel. destruct s as [|nextchar s1]; [apply within_failed|].
    simpl in Hfuel. cbn [scan_once].
    destruct (nextchar =? 34)%N.
    { destruct (scanstring [] s1) as [[str rest]|] eqn:E; [|apply within_failed].
      apply scanstring_length in E. apply within_parsed. simpl. lia. }
    destruct (nextchar =? 123)%N.
    { destruct (skip_ws s1) as [|c s2] eqn:E; [apply within_failed|].
      apply skip_ws_cons in E.
      destruct (c =? 125)%N; [apply within_parsed; simpl; lia|].
      destruct (c =? 34)%N; [|apply within_failed].
      apply (within_shorter _ _ s2); [simpl; lia|]. apply IHobj. lia. }
    destruct (nextchar =? 91)%N.
    { destruct (skip_ws s1) as [|c s2] eqn:E; [apply within_failed|].
      apply skip_ws_cons in E.
      destruct (c =? 93)%N; [apply within_parsed; simpl; lia|].
      apply (within_shorter _ _ (c :: s2)); [simpl; lia|]. apply IHarr. simpl. lia. }
    destruct (starts_with (pystr_of "null") (nextchar :: s1));
      [apply within_parsed, length_drop_cons|].
    destruct (starts_with (pystr_of "true") (nextchar :: s1));
      [apply within_parsed, length_drop_cons|].
    destruct (starts_with (pystr_of "false") (nextchar :: s1));
      [apply within_parsed, length_drop_cons|].
    destruct (match_number (nextchar :: s1)) as [[[[integer frac] exp] rest]|] eqn:E.
    { apply match_number_length in E.
      destruct frac, exp; try (by apply within_parsed).
      destruct (parse_int integer); [by apply within_parsed | apply within_failed]. }
    destruct (starts_with (pystr_of "NaN") (nextchar :: s1));
      [apply within_parsed, length_drop_cons|].
    destruct (starts_with (pystr_of "Infinity") (nextchar :: s1));
      [apply within_parsed, length_drop_cons|].
    destruct (starts_with (pystr_of "-Infinity") (nextchar :: s1));
      [apply within_parsed, length_drop_cons|].
    apply within_failed.
  - intros values s Hfuel. cbn [JSONArray].
    destruct (IHscan s ltac:(lia)) as [Hne Hrest].
    destruct (scan_once fuel s) as [value rest|e|] eqn:E;
      [|apply within_failed|done].
    specialize (Hrest _ _ eq_refl).
    destruct (skip_ws rest) as [|c s1] eqn:E1; [apply within_failed|].
    apply skip_ws_cons in E1.
    destruct (c =? 93)%N; [apply within_parsed; lia|].
    destruct (c =? 44)%N; [|apply within_failed].
    pose proof (skip_ws_length s1) as Hws.
    apply (within_shorter _ _ (skip_ws s1)); [lia|]. apply IHarr. lia.
  - intros pairs s Hfuel. cbn [JSONObject].
    destruct (scanstring [] s) as [[key rest]|] eqn:E; [|apply within_failed].
    apply scanstring_length in E.
    destruct (skip_ws rest) as [|c s1] eqn:E1; [apply within_failed|].
    apply skip_ws_cons in E1.
    destruct (c =? 58)%N; [|apply within_failed].
    pose proof (skip_ws_length s1) as Hws.
    destruct (IHscan (skip_ws s1) ltac:(lia)) as [Hne Hrest].
    destruct (scan_once fuel (skip_ws s1)) as [value rest2|e|] eqn:E2;
      [|apply within_failed|done].
    specialize (Hrest _ _ eq_refl).
    destruct (skip_ws rest2) as [|c2 s2] eqn:E3; [apply within_failed|].
    apply skip_ws_cons in E3.
    destruct (c2 =? 125)%N; [apply within_parsed; lia|].
    destruct (c2 =? 44)%N; [|apply within_failed].
    destruct (skip_ws s2) as [|q s3] eqn:E4; [apply within_failed|].
    apply skip_ws_cons in E4.
    destruct (q =? 34)%N; [|apply within_failed].
    apply (within_shorter _ _ s3); [lia|]. apply IHobj. lia.
Qed.

(** [json_loads] never uses up the budget it gives to the scanner. *)
Lemma json_loads_within_budget s :
  scan_once (scan_budget (skip_ws s)) (skip_ws s) <> Exhausted.
Proof.
  destruct (scan_budget_enough (scan_budget (skip_ws s))) as (H & _ & _).
  apply (H (skip_ws s)). unfold scan_budget. lia.
Qed.

(** A scan that did not run out of budget is the same with any larger
    budget. *)
Lemma scan_budget_monotone : forall fuel,
  (forall s fuel', (fuel <= fuel')%nat -> scan_once fuel s <> Exhausted ->
                   scan_once fuel' s = scan_once fuel s)
  /\ (forall values s fuel', (fuel <= fuel')%nat ->
        JSONArray fuel values s <> Exhausted ->
        JSONArray fuel' values s = JSONArray fuel values s)
  /\ (forall pairs s fuel', (fuel <= fuel')%nat ->
        JSONObject fuel pairs s <> Exhausted ->
        JSONObject fuel' pairs s = JSONObject fuel pairs s).
Proof.
  induction fuel as [|fuel (IHscan & IHarr & IHobj)].
  { repeat split; intros; simpl in *; done. }
  split; [|split].
  - intros s fuel' Hle Hne. destruct fuel' as [|fuel']; [lia|].
    cbn [scan_once] in *. destruct s as [|nextchar s1]; [done|].
    destruct (nextchar =? 34)%N; [done|].
    destruct (nextchar =? 123)%N.
    { destruct (skip_ws s1) as [|c s2]; [done|].
      destruct (c =? 125)%N; [done|]. destruct (c =? 34)%N; [|done].
      apply IHobj; [lia | done]. }
    destruct (nextchar =? 91)%N; [|done].
    destruct (skip_ws s1) as [|c s2]; [done|].
    destruct (c =? 93)%N; [done|]. apply IHarr; [lia | done].
  - intros values s fuel' Hle Hne. destruct fuel' as [|fuel']; [lia|].
    cbn [JSONArray] in *.
    destruct (scan_once fuel s) as [value rest|e|] eqn:E; [| |done].
    + rewrite (IHscan s fuel') by (try lia; rewrite E; discriminate).
      rewrite E. destruct (skip_ws rest) as [|c s1]; [done|].
      destruct (c =? 93)%N; [done|]. destruct (c =? 44)%N; [|done].
      apply IHarr; [lia | done].
    + rewrite (IHscan s fuel') by (try lia; rewrite E; discriminate).
      by rewrite E.
  - intros pairs s fuel' Hle Hne. destruct fuel' as [|fuel']; [lia|].
    cbn [JSONObject] in *.
    destruct (scanstring [] s) as [[key rest]|]; [|done].
    destruct (skip_ws rest) as [|c s1]; [done|].
    destruct (c =? 58)%N; [|done].
    destruct (scan_once fuel (skip_ws s1)) as [value rest2|e|] eqn:E; [| |done].
    + rewrite (IHscan (skip_ws s1) fuel') by (try lia; rewrite E; discriminate).
      rewrite E. destruct (skip_ws rest2) as [|c2 s2]; [done|].
      destruct (c2 =? 125)%N; [done|]. destruct (c2 =? 44)%N; [|done].
      destruct (skip_ws s2) as [|q s3]; [done|].
      destruct (q =? 34)%N; [|done]. apply IHobj; [lia | done].
    + rewrite (IHscan (skip_ws s1) fuel') by (try lia; rewrite E; discriminate).
      by rewrite E.
Qed.

(** The value decoded does not depend on the budget, once it is the one
    [json_loads] gives. *)
Lemma scan_once_any_budget s fuel :
  (scan_budget s <= fuel)%nat ->
  scan_once fuel s = scan_once (scan_budget s) s
  /\ scan_once fuel s <> Exhausted.
Proof.
  intros Hle.
  destruct (scan_budget_enough (scan_budget s)) as (Hin & _ & _).
  destruct (Hin s) as [Hne _]; [unfold scan_budget; lia|].
  destruct (scan_budget_monotone (scan_budget s)) as (Hmono & _ & _).
  rewrite (Hmono s fuel Hle Hne). done.
Qed.

(* ===================================================================== *)
(** * Assessment adapter *)
(* ===================================================================== *)

(** Scenario E of the specification: the fences are removed and the
    object inside is decoded. *)
Example fenced_response_decoded :
  without_fences fenced_response = score_only_response
  /\ analyze_with_ai (Some "models/gemini-1.5-flash") (Generated fenced_response)
     = (Some (JObj (<[pystr_of "score" := JInt 72]> ∅)), []).
Proof. split; vm_compute; reflexivity. Qed.

(** Text that is no JSON document gives no assessment, and the error is
    shown. *)
Example prose_response_rejected :
  analyze_with_ai (Some "models/gemini-1.5-flash")
    (Generated (pystr_of "Here is my analysis: the candidate is strong."))
  = (None, [JSONDecodeError]).
Proof. vm_compute. reflexivity. Qed.

(** The claim fails: a response that is a JSON object with a score and
    nothing else is returned as it is, ten required keys missing; so are
    an empty object and a bare number. *)
Lemma partial_assessment_returned :
  fst (analyze_with_ai (Some "models/gemini-1.5-flash")
         (Generated score_only_response))
  = Some (JObj (<[pystr_of "score" := JInt 72]> ∅))
  /\ has_required_fields (JObj (<[pystr_of "score" := JInt 72]> ∅)) = false
  /\ fst (analyze_with_ai (Some "models/gemini-1.5-flash")
            (Generated (pystr_of "{}")))
     = Some (JObj ∅)
  /\ fst (analyze_with_ai (Some "models/gemini-1.5-flash")
            (Generated (pystr_of "42")))
     = Some (JInt 42)
  /\ ~ (forall model_name response assessment,
          fst (analyze_with_ai model_name response) = Some assessment ->
          has_required_fields assessment = true).
Proof.
  repeat split; try (vm_compute; reflexivity).
  intros H.
  specialize (H (Some "models/gemini-1.5-flash") (Generated score_only_response)
                (JObj (<[pystr_of "score" := JInt 72]> ∅))).
  vm_compute in H. specialize (H eq_refl). discriminate H.
Qed.

(** C1 (amended): for every language-model response, [analyze_with_ai]
    returns nothing without showing an error when there is no model
    name, whatever the response; with a model name it returns nothing
    and shows the exception when the call raises or when the response,
    its fence markers removed and its ends stripped, does not decode as
    JSON, and otherwise returns the decoded JSON value exactly as
    decoded, whatever its keys are, so that the result has every
    required field if and only if the decoded response has.  One of the
    three cases always applies. *)
Theorem analyze_with_ai_returns_decoded_json (model_name : option string)
  (response : generation) :
  ((model_name = None \/ model_name = Some EmptyString) ->
   analyze_with_ai model_name response = (None, []))
  /\ (model_name <> None -> model_name <> Some EmptyString ->
      (forall e, response = GenerationFailed e ->
         analyze_with_ai model_name response = (None, [e]))
      /\ (forall text e, response = Generated text ->
            json_loads (without_fences text) = Raise e ->
            analyze_with_ai model_name response = (None, [e]))
      /\ (forall text assessment, response = Generated text ->
            json_loads (without_fences text) = Ret assessment ->
            analyze_with_ai model_name response = (Some assessment, [])
            /\ forall returned,
                 fst (analyze_with_ai model_name response) = Some returned ->
                 has_required_fields returned = has_required_fields assessment))
  /\ ((analyze_with_ai model_name response = (None, [])
       /\ (model_name = None \/ model_name = Some EmptyString))
      \/ (exists e,
            analyze_with_ai model_name response = (None, [e])
            /\ model_name <> None /\ model_name <> Some EmptyString
            /\ (response = GenerationFailed e
                \/ exists text, response = Generated text
                                /\ json_loads (without_fences text) = Raise e))
      \/ (exists text assessment,
            response = Generated text
            /\ model_name <> None /\ model_name <> Some EmptyString
            /\ json_loads (without_fences text) = Ret assessment
            /\ analyze_with_ai model_name response = (Some assessment, []))).
Proof.
  split; [|split].
  - by intros [-> | ->].
  - intros Hnone Hempty.
    destruct model_name as [[|c name]|]; [by destruct Hempty | | by destruct Hnone].
    unfold analyze_with_ai. split; [|split].
    + by intros e ->.
    + intros text e -> Hloads. cbv zeta. by rewrite Hloads.
    + intros text assessment -> Hloads. cbv zeta. rewrite Hloads.
      split; [done|]. by intros returned [= <-].
  - destruct model_name as [[|c name]|]; [left; auto | | left; auto].
    right. unfold analyze_with_ai. destruct response as [text|e].
    + cbv zeta.
      destruct (json_loads (without_fences text)) as [assessment|e] eqn:E.
      * right. exists text, assessment. done.
      * left. exists e. split; [done|]. split; [done|]. split; [done|].
        right. exists text. auto.
    + left. exists e. split; [done|]. split; [done|]. split; [done|]. by left.
Qed.

Lemma analyze_with_ai_returns_decoded_json_witness :
  analyze_with_ai None (Generated score_only_response) = (None, [])
  /\ analyze_with_ai (Some EmptyString) (Generated score_only_response) = (None, [])
  /\ analyze_with_ai (Some "models/gemini-1.5-flash")
       (GenerationFailed ValueError) = (None, [ValueError])
  /\ analyze_with_ai (Some "models/gemini-1.5-flash")
       (Generated (pystr_of "Here is my analysis: the candidate is strong."))
     = (None, [JSONDecodeError])
  /\ analyze_with_ai (Some "models/gemini-1.5-flash")
       (Generated score_only_response)
     = (Some (JObj (<[pystr_of "score" := JInt 72]> ∅)), []).
Proof.
  split; [|split; [|split; [|split]]].
  - apply (analyze_with_ai_returns_decoded_json None
             (Generated score_only_response)).
    left. reflexivity.
  - apply (analyze_with_ai_returns_decoded_json (Some EmptyString)
             (Generated score_only_response)).
    right. reflexivity.
  - destruct (analyze_with_ai_returns_decoded_json
                (Some "models/gemini-1.5-flash")
                (GenerationFailed ValueError)) as (_ & H & _).
    destruct H as (H & _); [discriminate | discriminate |].
    apply H. reflexivity.
  - destruct (analyze_with_ai_returns_decoded_json
                (Some "models/gemini-1.5-flash")
                (Generated (pystr_of "Here is my analysis: the candidate is strong.")))
      as (_ & H & _).
    destruct H as (_ & H & _); [discriminate | discriminate |].
    apply (H (pystr_of "Here is my analysis: the candidate is strong."));
      [reflexivity | vm_compute; reflexivity].
  - destruct (analyze_with_ai_returns_decoded_json
                (Some "models/gemini-1.5-flash")
                (Generated score_only_response)) as (_ & H & _).
    destruct H as (_ & _ & H); [discriminate | discriminate |].
    apply (H score_only_response); [reflexivity | vm_compute; reflexivity].
Defined.

(* ===================================================================== *)
(** * Data fetcher: what a returned bundle holds *)
(* ===================================================================== *)

(** A bundle comes from the last line of the [try] block: nothing was
    reported, the pages were fetched and every repository enriched. *)
Lemma fetch_bundle_inv env username b log :
  get_enhanced_github_data env username = (Data b, log) ->
  log = []
  /\ exists raw user_body orgs_res,
       get_user env username = Response 200 (Some user_body)
       /\ user b = user_body
       /\ fetch_repo_pages env username 1 [] = Ret raw
       /\ enhance_repos env 0 raw = Ret (repos b)
       /\ requests_get (get_orgs env username) = Ret orgs_res
       /\ (if fst orgs_res =? 200 then json_of (snd orgs_res)
           else Ret (PList [])) = Ret (orgs b).
Proof.
  unfold get_enhanced_github_data.
  destruct (GITHUB_TOKEN env) as [[|c token]|]; try discriminate.
  destruct (fetch_body env username) as [r|e] eqn:Hbody; [|discriminate].
  intros [= -> <-]. split; [done|].
  unfold fetch_body in Hbody.
  destruct (get_user env username) as [|status body] eqn:Huser; [discriminate|].
  simpl in Hbody.
  destruct (status =? 200) eqn:Hs; simpl in Hbody; [|discriminate].
  apply Z.eqb_eq in Hs as ->.
  destruct body as [user_body|]; simpl in Hbody; [|discriminate].
  apply bind_returns in Hbody as (raw & Hraw & Hbody).
  apply bind_returns in Hbody as (enhanced & Henh & Hbody).
  apply bind_returns in Hbody as (orgs_res & Horgs & Hbody).
  apply bind_returns in Hbody as (orgs_v & Hov & Hbody).
  injection Hbody as <-. simpl. exists raw, user_body, orgs_res.
  repeat split; done.
Qed.

(** The record written by one turn of the enrichment loop. *)
Lemma enhance_repo_shape env tick r r' :
  enhance_repo env tick r = Ret r' ->
  exists full_name lang_url lang_res languages n code act,
    r !! "full_name" = Some full_name
    /\ r !! "languages_url" = Some lang_url
    /\ requests_get (get_languages env lang_url) = Ret lang_res
    /\ (if fst lang_res =? 200 then json_of (snd lang_res) else Ret (PDict ∅))
       = Ret languages
    /\ py_len languages = Ret n
    /\ let readme := get_readme_content env full_name in
       let r1 := <["readme_exists" := PBool (bool_decide (is_Some readme))]> r in
       let r2 := <["readme_preview" := py_option (PStr <$> readme)]> r1 in
       let r3 := <["languages" := languages]> r2 in
       let r4 := <["languages_count" := PInt n]> r3 in
       let r5 := <["commit_activity" :=
                     py_option (get_commit_activity env full_name)]> r4 in
       let r6 := <["doc_score" := PInt (calculate_documentation_score r5)]> r5 in
       let r7 := <["code_score" := PInt code]> r6 in
       calculate_code_quality_score r6 = Ret code
       /\ calculate_activity_score (clock env tick) r7 = Ret act
       /\ r' = <["activity_score" := PInt act]> r7.
Proof.
  unfold enhance_repo. intros H.
  apply bind_returns in H as (full_name & Hfn & H).
  apply bind_returns in H as (lang_url & Hlu & H).
  apply bind_returns in H as (lang_res & Hlr & H).
  apply bind_returns in H as (languages & Hl & H).
  apply bind_returns in H as (n & Hn & H).
  apply bind_returns in H as (code & Hc & H).
  apply bind_returns in H as (act & Ha & H).
  injection H as <-.
  unfold dict_item in Hfn, Hlu. revert Hlu. insert_lookups. intros Hlu.
  destruct (r !! "full_name") as [fn|] eqn:E1; [|discriminate].
  destruct (r !! "languages_url") as [lu|] eqn:E2; [|discriminate].
  injection Hfn as ->. injection Hlu as ->.
  exists full_name, lang_url, lang_res, languages, n, code, act.
  repeat split; done.
Qed.

(** The enrichment loop treats the repositories one by one, in order,
    the [i]-th with the [i]-th reading of the clock. *)
Lemma enhance_repos_lookup env rs : forall tick rs',
  enhance_repos env tick rs = Ret rs' ->
  length rs' = length rs
  /\ forall (i : nat) r', rs' !! i = Some r' ->
       exists r, rs !! i = Some r
                 /\ enhance_repo env (tick + i) r = Ret r'.
Proof.
  induction rs as [|r0 rs IH]; intros tick rs' H; simpl in H.
  - injection H as <-. split; [done|]. intros i r' Hi. by destruct i.
  - apply bind_returns in H as (r0' & Hr0 & H).
    apply bind_returns in H as (rest & Hrest & H).
    injection H as <-. apply IH in Hrest as [Hlen Hrest]. split.
    + simpl. by rewrite Hlen.
    + intros [|i] r' Hi; simpl in Hi.
      * injection Hi as <-. exists r0. by rewrite Nat.add_0_r.
      * apply Hrest in Hi as (r & Hr & He). exists r. split; [done|].
        by replace (tick + S i)%nat with (S tick + i)%nat by lia.
Qed.

(** Every repository of a returned bundle is the enrichment of the
    repository at the same place of the fetched listing. *)
Lemma fetched_repo_origin env username b log (i : nat) r' :
  get_enhanced_github_data env username = (Data b, log) ->
  repos b !! i = Some r' ->
  exists raw r,
    fetch_repo_pages env username 1 [] = Ret raw
    /\ length (repos b) = length raw
    /\ raw !! i = Some r
    /\ enhance_repo env i r = Ret r'.
Proof.
  intros Hfetch Hi.
  apply fetch_bundle_inv in Hfetch as (_ & raw & ? & ? & _ & _ & Hraw & Henh & _).
  apply enhance_repos_lookup in Henh as [Hlen Hall].
  apply Hall in Hi as (r & Hr & He). exists raw, r. auto.
Qed.

(** The bundle of the healthy host is the one its fetch returns. *)
Lemma fetched_bundle_fetched (n : nat) :
  is_bundle (fst (get_enhanced_github_data (healthy_host n) "octocat")) = true ->
  snd (get_enhanced_github_data (healthy_host n) "octocat") = [] ->
  get_enhanced_github_data (healthy_host n) "octocat"
  = (Data (fetched_bundle n), []).
Proof.
  unfold fetched_bundle.
  destruct (get_enhanced_github_data (healthy_host n) "octocat") as [[| |b] log];
    simpl; try discriminate. by intros _ ->.
Qed.

Lemma lookup_default_lt {A} (l : list A) (i : nat) (d : A) :
  (i < length l)%nat -> l !! i = Some (default d (l !! i)).
Proof.
  intros Hlt. destruct (lookup_lt_is_Some_2 l i Hlt) as [x Hx]. by rewrite Hx.
Qed.

(** Discharges the two hypotheses about the second repository fetched
    from the healthy host. *)
Ltac second_fetched :=
  first
    [ apply fetched_bundle_fetched; vm_compute; reflexivity
    | unfold second_fetched_repo; apply lookup_default_lt; vm_compute; lia ].

Lemma documentation_score_ext (repo repo' : gmap string pyval) :
  (forall k, k ∈ doc_signal_keys -> repo !! k = repo' !! k) ->
  calculate_documentation_score repo = calculate_documentation_score repo'.
Proof.
  intros H. unfold calculate_documentation_score, dict_get_none.
  rewrite !(dict_get_ext repo repo') by (apply H; unfold doc_signal_keys; set_solver).
  reflexivity.
Qed.

Lemma code_quality_score_range repo score :
  calculate_code_quality_score repo = Ret score -> 0 <= score <= 100.
Proof.
  intros H. apply code_quality_score_returned in H as ->.
  apply code_quality_points_range.
Qed.

(** Splits a membership in a concrete list of keys into its cases. *)
Ltac key_cases H :=
  repeat (apply elem_of_cons in H as [-> | H]); [ .. | by apply elem_of_nil in H ].

(** X1: every repository of a returned bundle carries the three
    sub-scores as integers, the documentation and code-quality scores
    between 0 and 100 and the activity score between 10 and 100. *)
Theorem fetched_repo_scores_in_range env username b log (i : nat) r' :
  get_enhanced_github_data env username = (Data b, log) ->
  repos b !! i = Some r' ->
  int_field_in r' "doc_score" 0 100
  /\ int_field_in r' "code_score" 0 100
  /\ int_field_in r' "activity_score" 10 100.
Proof.
  intros Hfetch Hi.
  destruct (fetched_repo_origin _ _ _ _ _ _ Hfetch Hi) as (raw & r & _ & _ & _ & He).
  apply enhance_repo_shape in He
    as (fn & lu & lr & langs & n & code & act & _ & _ & _ & _ & _ & Hc & Ha & ->).
  unfold int_field_in. insert_lookups. repeat split.
  - eexists. split; [reflexivity | apply documentation_score_range].
  - eexists. split; [reflexivity | by eapply code_quality_score_range].
  - eexists. split; [reflexivity | by eapply activity_score_returned].
Qed.

Lemma fetched_repo_scores_in_range_witness :
  int_field_in second_fetched_repo "doc_score" 0 100
  /\ int_field_in second_fetched_repo "code_score" 0 100
  /\ int_field_in second_fetched_repo "activity_score" 10 100.
Proof.
  apply (fetched_repo_scores_in_range (healthy_host 2) "octocat"
           (fetched_bundle 2) [] 1%nat).
  - second_fetched.
  - second_fetched.
Defined.

(** X2: the scores stored in a repository of a returned bundle are the
    scores of the stored record itself: computing the documentation, the
    code-quality and (at the same clock reading) the activity score
    again on the enriched record gives the stored values. *)
Theorem fetched_repo_scores_consistent env username b log (i : nat) r' :
  get_enhanced_github_data env username = (Data b, log) ->
  repos b !! i = Some r' ->
  r' !! "doc_score" = Some (PInt (calculate_documentation_score r'))
  /\ (exists code, r' !! "code_score" = Some (PInt code)
                   /\ calculate_code_quality_score r' = Ret code)
  /\ (exists act, r' !! "activity_score" = Some (PInt act)
                  /\ calculate_activity_score (clock env i) r' = Ret act).
Proof.
  intros Hfetch Hi.
  destruct (fetched_repo_origin _ _ _ _ _ _ Hfetch Hi) as (raw & r & _ & _ & _ & He).
  apply enhance_repo_shape in He
    as (fn & lu & lr & langs & n & code & act & _ & _ & _ & _ & _ & Hc & Ha & ->).
  cbv zeta in *. split; [|split].
  - insert_lookups. do 2 f_equal. apply documentation_score_ext.
    intros k Hk. unfold doc_signal_keys in Hk. key_cases Hk;
      insert_lookups; reflexivity.
  - exists code. split; [by insert_lookups|].
    rewrite <- Hc. apply code_quality_score_ext.
    intros k Hk. unfold code_keys in Hk. key_cases Hk;
      insert_lookups; reflexivity.
  - exists act. split; [by insert_lookups|].
    rewrite <- Ha. apply activity_score_ext.
    intros k Hk. unfold activity_keys in Hk. key_cases Hk;
      insert_lookups; reflexivity.
Qed.

Lemma fetched_repo_scores_consistent_witness :
  second_fetched_repo !! "doc_score"
  = Some (PInt (calculate_documentation_score second_fetched_repo)).
Proof.
  apply (fetched_repo_scores_consistent (healthy_host 2) "octocat"
           (fetched_bundle 2) [] 1%nat).
  - second_fetched.
  - second_fetched.
Defined.

(** X3: the enrichment is append-only: a repository of a returned bundle
    has every entry of the record listed at the same place by the host,
    unchanged, except under the eight keys the enrichment writes, which
    are all present; and the bundle has as many repositories as the
    listing. *)
Theorem fetched_repo_keeps_raw_fields env username b log (i : nat) r' :
  get_enhanced_github_data env username = (Data b, log) ->
  repos b !! i = Some r' ->
  exists raw r,
    fetch_repo_pages env username 1 [] = Ret raw
    /\ length (repos b) = length raw
    /\ raw !! i = Some r
    /\ (forall k, k ∉ enrichment_keys -> r' !! k = r !! k)
    /\ (forall k, k ∈ enrichment_keys -> is_Some (r' !! k)).
Proof.
  intros Hfetch Hi.
  destruct (fetched_repo_origin _ _ _ _ _ _ Hfetch Hi)
    as (raw & r & Hraw & Hlen & Hr & He).
  exists raw, r. repeat split; try done.
  - apply enhance_repo_shape in He
      as (fn & lu & lr & langs & n & code & act & _ & _ & _ & _ & _ & _ & _ & ->).
    intros k Hk. unfold enrichment_keys in Hk.
    rewrite !lookup_insert_ne; [done | intros <-; apply Hk; set_solver ..].
  - apply enhance_repo_shape in He
      as (fn & lu & lr & langs & n & code & act & _ & _ & _ & _ & _ & _ & _ & ->).
    intros k Hk. unfold enrichment_keys in Hk. key_cases Hk;
      insert_lookups; eexists; reflexivity.
Qed.

Lemma fetched_repo_keeps_raw_fields_witness :
  exists raw r,
    fetch_repo_pages (healthy_host 2) "octocat" 1 [] = Ret raw
    /\ length (repos (fetched_bundle 2)) = length raw
    /\ raw !! 1%nat = Some r
    /\ (forall k, k ∉ enrichment_keys -> second_fetched_repo !! k = r !! k)
    /\ (forall k, k ∈ enrichment_keys -> is_Some (second_fetched_repo !! k)).
Proof.
  apply (fetched_repo_keeps_raw_fields (healthy_host 2) "octocat"
           (fetched_bundle 2) [] 1%nat).
  - second_fetched.
  - second_fetched.
Defined.

Lemma activity_score_parses now repo score :
  calculate_activity_score now repo = Ret score ->
  exists s d, repo !! "pushed_at" = Some (PStr s) /\ strptime (PStr s) = Ret d.
Proof.
  unfold calculate_activity_score. intros H.
  apply bind_returns in H as (d & Hd & _).
  unfold dict_get in Hd. destruct (repo !! "pushed_at") as [v|]; simpl in Hd.
  - destruct v; try discriminate. eauto.
  - vm_compute in Hd. discriminate.
Qed.

(** X4: every repository of a returned bundle has a [pushed_at] that is
    a string matching the timestamp format: a listed repository whose
    [pushed_at] is missing, null or malformed makes the whole fetch end
    with the failure sentinel. *)
Theorem fetched_repo_pushed_at_parses env username b log (i : nat) r' :
  get_enhanced_github_data env username = (Data b, log) ->
  repos b !! i = Some r' ->
  exists s d, r' !! "pushed_at" = Some (PStr s) /\ strptime (PStr s) = Ret d.
Proof.
  intros Hfetch Hi.
  destruct (fetched_repo_scores_consistent _ _ _ _ _ _ Hfetch Hi)
    as (_ & _ & act & _ & Ha).
  by eapply activity_score_parses.
Qed.

Lemma fetched_repo_pushed_at_parses_witness :
  exists s d, second_fetched_repo !! "pushed_at" = Some (PStr s)
              /\ strptime (PStr s) = Ret d.
Proof.
  apply (fetched_repo_pushed_at_parses (healthy_host 2) "octocat"
           (fetched_bundle 2) [] 1%nat).
  - second_fetched.
  - second_fetched.
Defined.

Lemma substring_length (n : nat) : forall s,
  (String.length (String.substring 0 n s) <= n)%nat.
Proof.
  induction n as [|n IH]; intros [|c s]; simpl; try lia.
  specialize (IH s). lia.
Qed.

Lemma get_readme_content_some env full_name preview :
  get_readme_content env full_name = Some preview <->
  exists text, get_readme env full_name = Response 200 (Some text)
               /\ preview = String.substring 0 500 text.
Proof.
  unfold get_readme_content. split.
  - destruct (get_readme env full_name) as [|status [text|]]; try discriminate.
    + destruct status as [|p|p]; try discriminate.
      do 8 (destruct p as [p|p|]; try discriminate).
      intros [= <-]. eauto.
    + destruct status as [|p|p]; try discriminate.
      do 8 (destruct p as [p|p|]; try discriminate).
  - intros (text & -> & ->). reflexivity.
Qed.

(** X5: in a repository of a returned bundle [readme_exists] is a
    boolean, true exactly when the README request answered 200 with a
    text that decodes; [readme_preview] is then the first 500 characters
    of that text, and [None] otherwise. *)
Theorem fetched_repo_readme env username b log (i : nat) r' :
  get_enhanced_github_data env username = (Data b, log) ->
  repos b !! i = Some r' ->
  exists full_name,
    r' !! "full_name" = Some full_name
    /\ (forall text,
          get_readme env full_name = Response 200 (Some text) ->
          r' !! "readme_exists" = Some (PBool true)
          /\ r' !! "readme_preview" = Some (PStr (String.substring 0 500 text))
          /\ (String.length (String.substring 0 500 text) <= 500)%nat)
    /\ ((forall text, get_readme env full_name <> Response 200 (Some text)) ->
        r' !! "readme_exists" = Some (PBool false)
        /\ r' !! "readme_preview" = Some PNone).
Proof.
  intros Hfetch Hi.
  destruct (fetched_repo_origin _ _ _ _ _ _ Hfetch Hi) as (raw & r & _ & _ & _ & He).
  apply enhance_repo_shape in He
    as (fn & lu & lr & langs & n & code & act & Hfn & _ & _ & _ & _ & _ & _ & ->).
  exists fn. cbv zeta. insert_lookups. split; [done|]. split.
  - intros text Htext.
    assert (Hc : get_readme_content env fn = Some (String.substring 0 500 text)).
    { apply get_readme_content_some. eauto. }
    rewrite Hc. repeat split; try done. apply substring_length.
  - intros Hnone.
    destruct (get_readme_content env fn) as [preview|] eqn:Hc; [|done].
    apply get_readme_content_some in Hc as (text & Htext & _).
    by destruct (Hnone text).
Qed.

Lemma fetched_repo_readme_witness :
  second_fetched_repo !! "readme_exists" = Some (PBool true)
  /\ second_fetched_repo !! "readme_preview" = Some (PStr "# Project").
Proof.
  destruct (fetched_repo_readme (healthy_host 2) "octocat"
              (fetched_bundle 2) [] 1%nat second_fetched_repo)
    as (full_name & Hname & Hsome & _).
  - second_fetched.
  - second_fetched.
  - assert (Hfn : second_fetched_repo !! "full_name"
                  = Some (PStr "octocat/project")) by (vm_compute; reflexivity).
    rewrite Hfn in Hname. injection Hname as <-.
    destruct (Hsome "# Project") as (H1 & H2 & _); [reflexivity|].
    split; [exact H1 | exact H2].
Defined.

(** X6: in a repository of a returned bundle [languages_count] is the
    length of [languages]; when the languages request answered another
    status than 200, [languages] is the empty dictionary and the count is
    0, so that the record has no detected language. *)
Theorem fetched_repo_languages env username b log (i : nat) r' :
  get_enhanced_github_data env username = (Data b, log) ->
  repos b !! i = Some r' ->
  exists lang_url status body languages n,
    r' !! "languages_url" = Some lang_url
    /\ get_languages env lang_url = Response status body
    /\ r' !! "languages" = Some languages
    /\ r' !! "languages_count" = Some (PInt n)
    /\ py_len languages = Ret n
    /\ has_language r' = (0 <? n)
    /\ (status = 200 -> body = Some languages)
    /\ (status <> 200 -> languages = PDict ∅ /\ n = 0).
Proof.
  intros Hfetch Hi.
  destruct (fetched_repo_origin _ _ _ _ _ _ Hfetch Hi) as (raw & r & _ & _ & _ & He).
  apply enhance_repo_shape in He
    as (fn & lu & lr & langs & n & code & act & _ & Hlu & Hlr & Hl & Hn & _ & _ & ->).
  destruct (get_languages env lu) as [|status body] eqn:Hget; [discriminate|].
  injection Hlr as <-. simpl in Hl.
  exists lu, status, body, langs, n. cbv zeta. unfold has_language.
  dict_lookups. insert_lookups. repeat split; try done.
  - intros ->. simpl in Hl. destruct body; [by injection Hl as -> | discriminate].
  - destruct (status =? 200) eqn:E; [apply Z.eqb_eq in E; done|].
    by injection Hl as <-.
  - destruct (status =? 200) eqn:E; [apply Z.eqb_eq in E; done|].
    injection Hl as <-. by injection Hn as <-.
Qed.

Lemma fetched_repo_languages_witness :
  exists lang_url status body languages n,
    second_fetched_repo !! "languages_url" = Some lang_url
    /\ get_languages (healthy_host 2) lang_url = Response status body
    /\ second_fetched_repo !! "languages" = Some languages
    /\ second_fetched_repo !! "languages_count" = Some (PInt n)
    /\ py_len languages = Ret n
    /\ has_language second_fetched_repo = (0 <? n)
    /\ (status = 200 -> body = Some languages)
    /\ (status <> 200 -> languages = PDict ∅ /\ n = 0).
Proof.
  apply (fetched_repo_languages (healthy_host 2) "octocat"
           (fetched_bundle 2) [] 1%nat).
  - second_fetched.
  - second_fetched.
Defined.

(* ===================================================================== *)
(** * Data fetcher: the listing is a run of consecutive pages *)
(* ===================================================================== *)

(** X7: when the page loop returns, its result is the repositories it
    started with followed by the contents of consecutive pages, each of
    them a non-empty page answered with status 200 and requested while
    fewer than 50 repositories were accumulated; at most [50 - len(acc)]
    pages are added; and the loop stopped because 50 repositories were
    reached or because the next page was empty or not answered with
    status 200. *)
Theorem fetch_repo_pages_consecutive env username page acc rs :
  fetch_repo_pages env username page acc = Ret rs ->
  exists pages : list (list (gmap string pyval)),
    rs = acc ++ concat pages
    /\ (length pages <= 50 - length acc)%nat
    /\ (forall (i : nat) pg, pages !! i = Some pg ->
          pg <> []
          /\ get_repos env username (page + Z.of_nat i) = Response 200 (Some pg)
          /\ (length (acc ++ concat (take i pages)) < 50)%nat)
    /\ ((50 <= length rs)%nat
        \/ exists status body,
             get_repos env username (page + Z.of_nat (length pages))
             = Response status body
             /\ (status <> 200 \/ body = Some [])).
Proof.
  remember (50 - length acc)%nat as m eqn:Hm.
  revert page acc Hm rs. induction m as [m IH] using lt_wf_ind.
  intros page acc -> rs. rewrite fetch_repo_pages_unfolded.
  case_decide as Hlt.
  2: { intros [= <-]. exists []. simpl. rewrite app_nil_r.
       split; [done|]. split; [lia|]. split; [by intros [|i] pg Hi|]. left. lia. }
  destruct (get_repos env username page) as [|status body] eqn:Hpage;
    [discriminate|].
  destruct (status =? 200) eqn:Hs.
  2: { intros [= <-]. exists []. simpl. rewrite app_nil_r, Z.add_0_r.
       apply Z.eqb_neq in Hs.
       split; [done|]. split; [lia|]. split; [by intros [|i] pg Hi|].
       right. exists status, body. auto. }
  apply Z.eqb_eq in Hs as ->.
  destruct body as [[|r pg]|]; [| |discriminate].
  { intros [= <-]. exists []. simpl. rewrite app_nil_r, Z.add_0_r.
    split; [done|]. split; [lia|]. split; [by intros [|i] pg' Hi|].
    right. exists 200, (Some []). auto. }
  intros Hrec.
  eapply (IH (50 - length (acc ++ r :: pg))%nat) in Hrec; [| |reflexivity].
  2: { rewrite length_app. simpl. lia. }
  destruct Hrec as (pages & -> & Hcount & Hpages & Hstop).
  exists ((r :: pg) :: pages). rewrite length_app in Hcount. simpl in Hcount.
  split; [by rewrite <- app_assoc|]. split; [simpl; lia|]. split.
  - intros [|i] pg' Hi; simpl in Hi.
    + injection Hi as <-. simpl. rewrite app_nil_r, Z.add_0_r. done.
    + apply Hpages in Hi as (Hne & Hget & Hacc). repeat split; [done| |].
      * rewrite <- Hget. f_equal. lia.
      * simpl. rewrite !length_app in *. simpl in *. rewrite ?length_app. lia.
  - destruct Hstop as [Hstop | (status & body & Hget & Hwhy)].
    + left. rewrite !length_app in *. simpl in *. rewrite ?length_app. lia.
    + right. exists status, body. split; [|done].
      rewrite <- Hget. f_equal. simpl. lia.
Qed.

Lemma fetch_repo_pages_consecutive_witness :
  exists pages : list (list (gmap string pyval)),
    [listed_repo 0] = [] ++ concat pages
    /\ (length pages <= 50 - length (@nil (gmap string pyval)))%nat
    /\ (forall (i : nat) pg, pages !! i = Some pg ->
          pg <> []
          /\ get_repos one_page_host "octocat" (1 + Z.of_nat i)
             = Response 200 (Some pg)
          /\ (length ([] ++ concat (take i pages)) < 50)%nat)
    /\ ((50 <= length [listed_repo 0])%nat
        \/ exists status body,
             get_repos one_page_host "octocat" (1 + Z.of_nat (length pages))
             = Response status body
             /\ (status <> 200 \/ body = Some [])).
Proof.
  apply (fetch_repo_pages_consecutive one_page_host "octocat" 1 []).
  rewrite fetch_repo_pages_unfolded. simpl.
  apply fetch_repo_pages_stops_at_empty_page. reflexivity.
Defined.

(* ===================================================================== *)
(** * Scores: decay with time, README and the documentation rule *)
(* ===================================================================== *)




(** X9: a README is worth 40 of the 100 points of documentation, so a
    record with a README scores at least 40 and one without at most 60;
    the score is 100 exactly when the five signals are all on.  Hence a
    repository whose stored [doc_score] is its documentation score gets
    the 'Missing Documentation' recommendation never when it has a
    README, and always when it has neither README nor wiki nor pages. *)
Theorem readme_decides_missing_documentation (repo : gmap string pyval) :
  let on k := truthy (dict_get_none repo k) in
  let readme := truthy (dict_get repo "readme_exists" (PBool false)) in
  (readme = true -> 40 <= calculate_documentation_score repo)
  /\ (readme = false -> calculate_documentation_score repo <= 60)
  /\ (calculate_documentation_score repo = 100 <->
      readme = true /\ on "description" = true /\ on "homepage" = true
      /\ on "has_wiki" = true /\ on "has_pages" = true)
  /\ (repo !! "doc_score" = Some (PInt (calculate_documentation_score repo)) ->
      (readme = true -> lacks_documentation repo = false)
      /\ (readme = false -> on "has_wiki" = false -> on "has_pages" = false ->
          lacks_documentation repo = true)).
Proof.
  cbv zeta. unfold lacks_documentation, py_lt, calculate_documentation_score.
  destruct (truthy (dict_get repo "readme_exists" (PBool false))),
    (truthy (dict_get_none repo "description")),
    (truthy (dict_get_none repo "homepage")),
    (truthy (dict_get_none repo "has_wiki")),
    (truthy (dict_get_none repo "has_pages")); cbn [add_if].
  all: split; [intros; lia | split; [intros; lia | split]].
  all: try (split; [intros; lia | intros (? & ? & ? & ? & ?); done]).
  all: try (split; [done | by intros; repeat split]).
  all: intros Hdoc; unfold dict_get; rewrite Hdoc; cbn;
    split; intros; done.
Qed.

Lemma readme_decides_missing_documentation_witness :
  lacks_documentation second_fetched_repo = false.
Proof.
  destruct (readme_decides_missing_documentation second_fetched_repo)
    as (_ & _ & _ & H).
  destruct H as [H _].
  - assert (Hd : second_fetched_repo !! "doc_score" = Some (PInt 60))
      by (vm_compute; reflexivity).
    assert (Hs : calculate_documentation_score second_fetched_repo = 60)
      by (vm_compute; reflexivity).
    rewrite Hd, Hs. reflexivity.
  - apply H. vm_compute. reflexivity.
Defined.

(* ===================================================================== *)
(** * Portfolio score: range on scored bundles *)
(* ===================================================================== *)

Lemma py_sum_from_bounds (lo hi : Z) vs : forall acc,
  Forall (fun v => exists n, as_int v = Ret n /\ lo <= n <= hi) vs ->
  exists s, py_sum_from acc vs = Ret s
            /\ acc + lo * Z.of_nat (length vs) <= s
               <= acc + hi * Z.of_nat (length vs).
Proof.
  induction vs as [|v vs IH]; intros acc Hall; simpl.
  - exists acc. split; [done | lia].
  - inversion Hall as [|? ? (n & Hn & Hr) Hrest]; subst. rewrite Hn. simpl.
    destruct (IH (acc + n) Hrest) as (s & Hs & Hb). exists s. split; [done | lia].
Qed.

Lemma sum_field_bounds k (lo hi : Z) rs :
  Forall (fun r => number_in r k lo hi) rs ->
  exists s, sum_field k rs = Ret s
            /\ lo * Z.of_nat (length rs) <= s <= hi * Z.of_nat (length rs).
Proof.
  intros Hall. unfold sum_field, py_sum.
  destruct (py_sum_from_bounds lo hi (map (fun r => dict_get r k (PInt 0)) rs) 0)
    as (s & Hs & Hb).
  - apply Forall_map. eapply Forall_impl; [exact Hall|]. by intros r Hr.
  - rewrite length_map in Hb. exists s. split; [done | lia].
Qed.

Lemma sum_field_lower k rs :
  Forall (fun r => count_field r k) rs ->
  exists s, sum_field k rs = Ret s /\ 0 <= s.
Proof.
  intros Hall. unfold sum_field, py_sum.
  assert (H : forall vs acc,
             Forall (fun v => exists n, as_int v = Ret n /\ 0 <= n) vs ->
             0 <= acc -> exists s, py_sum_from acc vs = Ret s /\ 0 <= s).
  { induction vs as [|v vs IH]; intros acc Hvs Hacc; simpl; [eauto|].
    inversion Hvs as [|? ? (n & Hn & Hr) Hrest]; subst. rewrite Hn. simpl.
    apply IH; [done | lia]. }
  apply H; [|lia]. apply Forall_map. eapply Forall_impl; [exact Hall|].
  by intros r Hr.
Qed.

Lemma mean_bounds (lo hi s : Z) (rs : list (gmap string pyval)) :
  rs <> [] ->
  lo * Z.of_nat (length rs) <= s <= hi * Z.of_nat (length rs) ->
  (inject_Z lo <= mean s rs /\ mean s rs <= inject_Z hi)%Q.
Proof.
  intros Hne Hs. unfold mean.
  assert (Hlen : 0 < Z.of_nat (length rs)) by (destruct rs; [done | simpl; lia]).
  assert (HlenQ : (0 < inject_Z (Z.of_nat (length rs)))%Q).
  { unfold Qlt, inject_Z. simpl. lia. }
  split.
  - apply Qle_shift_div_l; [done|]. rewrite <- inject_Z_mult.
    rewrite <- Zle_Qle. lia.
  - apply Qle_shift_div_r; [done|]. rewrite <- inject_Z_mult.
    rewrite <- Zle_Qle. lia.
Qed.

Lemma py_min_in_range (x : Q) : (0 <= x)%Q -> in_range (py_min 100 x).
Proof.
  intros Hx. unfold py_min, Qlt_bool, in_range.
  destruct (Qle_bool 100 x) eqn:E; simpl.
  - split; unfold Qle; simpl; lia.
  - split; [done|]. destruct (Qlt_le_dec x 100) as [Hlt|Hge].
    + by apply Qlt_le_weak.
    + apply Qle_bool_iff in Hge. congruence.
Qed.

Lemma collect_languages_returns rs : forall languages,
  Forall (fun r => returns (py_keys (dict_get r "languages" (PDict ∅)))) rs ->
  returns (collect_languages languages rs).
Proof.
  induction rs as [|r rs IH]; intros languages Hall; simpl; [by eexists|].
  inversion Hall as [|? ? [ks Hks] Hrest]; subst. rewrite Hks. simpl. by apply IH.
Qed.

Lemma scored_dimensions b :
  repos b <> [] -> Forall scored (repos b) ->
  exists ds,
    compute_dimensions b = Ret ds
    /\ in_range (doc_dim ds) /\ in_range (code_dim ds)
    /\ (10 <= activity_dim ds /\ activity_dim ds <= 100)%Q
    /\ (0 <= org_dim ds /\ org_dim ds <= 60)%Q
    /\ in_range (impact_dim ds)
    /\ (0 <= tech_dim ds /\ tech_dim ds <= 40)%Q.
Proof.
  intros Hne Hall. unfold compute_dimensions.
  destruct (sum_field_bounds "doc_score" 0 100 (repos b)) as (d & Hd & Hdb).
  { eapply Forall_impl; [exact Hall|]. by intros r (H & _). }
  destruct (sum_field_bounds "code_score" 0 100 (repos b)) as (c & Hc & Hcb).
  { eapply Forall_impl; [exact Hall|]. by intros r (_ & H & _). }
  destruct (sum_field_bounds "activity_score" 10 100 (repos b)) as (a & Ha & Hab).
  { eapply Forall_impl; [exact Hall|]. by intros r (_ & _ & H & _). }
  destruct (sum_field_lower "stargazers_count" (repos b)) as (st & Hst & Hstb).
  { eapply Forall_impl; [exact Hall|]. by intros r (_ & _ & _ & H & _). }
  destruct (sum_field_lower "forks_count" (repos b)) as (fk & Hfk & Hfkb).
  { eapply Forall_impl; [exact Hall|]. by intros r (_ & _ & _ & _ & H & _). }
  destruct (collect_languages_returns (repos b) ∅) as (langs & Hlangs).
  { eapply Forall_impl; [exact Hall|]. by intros r (_ & _ & _ & _ & _ & H). }
  rewrite Hd, Hc, Ha, Hst, Hfk, Hlangs. simpl. eexists. split; [reflexivity|].
  cbn [doc_dim code_dim activity_dim org_dim impact_dim tech_dim].
  pose proof (mean_bounds 0 100 d (repos b) Hne Hdb) as Hdm.
  pose proof (mean_bounds 0 100 c (repos b) Hne Hcb) as Hcm.
  pose proof (mean_bounds 10 100 a (repos b) Hne Hab) as Ham.
  pose proof (org_score_range b) as Ho.
  split; [exact Hdm|]. split; [exact Hcm|]. split; [exact Ham|].
  split; [|split].
  - change 0%Q with (inject_Z 0). change 60%Q with (inject_Z 60).
    rewrite <- !Zle_Qle. lia.
  - apply py_min_in_range. apply Qle_shift_div_l; [reflexivity|].
    rewrite Qmult_0_l. change 0%Q with (inject_Z 0). rewrite <- Zle_Qle. lia.
  - change 0%Q with (inject_Z 0). change 40%Q with (inject_Z 40).
    rewrite <- !Zle_Qle. lia.
Qed.

Lemma final_score_tight d c a o i t :
  in_range d -> in_range c -> (10 <= a /\ a <= 100)%Q ->
  (0 <= o /\ o <= 60)%Q -> in_range i -> (0 <= t /\ t <= 40)%Q ->
  (15 # 10 <= final_score_of d c a o i t
   /\ final_score_of d c a o i t <= 850 # 10)%Q.
Proof.
  unfold in_range, final_score_of.
  destruct weight_values as (-> & -> & -> & -> & -> & ->).
  intros. split; lra.
Qed.

Lemma dimension_map_lookup ds k v :
  dimension_map ds !! k = Some v ->
  (k = "Documentation Quality" /\ v = round1 (doc_dim ds))
  \/ (k = "Code Structure & Best Practices" /\ v = round1 (code_dim ds))
  \/ (k = "Activity Consistency" /\ v = round1 (activity_dim ds))
  \/ (k = "Repository Organization" /\ v = round1 (org_dim ds))
  \/ (k = "Project Impact" /\ v = round1 (impact_dim ds))
  \/ (k = "Technical Depth" /\ v = round1 (tech_dim ds)).
Proof.
  unfold dimension_map. rewrite !lookup_insert, lookup_empty.
  repeat case_decide; subst; intros [= <-]; tauto.
Qed.

(** X10: on a bundle with at least one repository, all of them scored,
    [calculate_portfolio_score] returns; the score lies between 1.5 and
    85, since the organisation and depth dimensions stop at 60 and 40
    and the activity dimension starts at 10; and the map holds exactly
    the six dimensions, each between 0 and 100. *)
Theorem portfolio_score_on_scored_bundle (b : bundle) :
  repos b <> [] -> Forall scored (repos b) ->
  exists score dims,
    calculate_portfolio_score (Data b) = Ret (score, dims)
    /\ (15 # 10 <= score /\ score <= 85)%Q
    /\ (forall k, is_Some (dims !! k) <-> k ∈ dimension_names)
    /\ (forall k v, dims !! k = Some v -> in_range v).
Proof.
  intros Hne Hall.
  destruct (scored_dimensions b Hne Hall)
    as (ds & Hds & Hd & Hc & Ha & Ho & Hi & Ht).
  unfold calculate_portfolio_score.
  destruct (repos b) as [|r rs] eqn:Hrepos; [done|].
  rewrite Hds. simpl. eexists _, _. split; [reflexivity|].
  pose proof (final_score_tight _ _ _ _ _ _ Hd Hc Ha Ho Hi Ht) as [Hlo Hhi].
  split; [|split].
  - split; [by apply round1_lower|].
    assert (E : (850 # 10 == 85)%Q) by reflexivity.
    rewrite <- E. by apply round1_upper.
  - intros k. split.
    + intros [v Hk]. unfold dimension_names.
      apply dimension_map_lookup in Hk
        as [[-> _]|[[-> _]|[[-> _]|[[-> _]|[[-> _]|[-> _]]]]]];
        repeat constructor.
    + intros Hk. unfold dimension_names in Hk. unfold dimension_map.
      key_cases Hk; insert_lookups; by eexists.
  - intros k v Hk.
    assert (Hsmall : forall x lo hi, (0 <= lo)%Q -> (hi <= 100)%Q ->
              (lo <= x /\ x <= hi)%Q -> in_range x).
    { intros x lo hi H1 H2 [H3 H4]. split; lra. }
    apply dimension_map_lookup in Hk
      as [[_ ->]|[[_ ->]|[[_ ->]|[[_ ->]|[[_ ->]|[_ ->]]]]]];
      apply round1_in_range; try done.
    + eapply Hsmall; [| |exact Ha]; unfold Qle; simpl; lia.
    + eapply Hsmall; [| |exact Ho]; unfold Qle; simpl; lia.
    + eapply Hsmall; [| |exact Ht]; unfold Qle; simpl; lia.
Qed.

Lemma portfolio_score_on_scored_bundle_witness :
  exists score dims,
    calculate_portfolio_score (Data rated_bundle) = Ret (score, dims)
    /\ (15 # 10 <= score /\ score <= 85)%Q
    /\ (forall k, is_Some (dims !! k) <-> k ∈ dimension_names)
    /\ (forall k v, dims !! k = Some v -> in_range v).
Proof.
  apply (portfolio_score_on_scored_bundle rated_bundle).
  - discriminate.
  - unfold rated_bundle, scored, number_in, count_field, returns.
    cbn [repos].
    repeat constructor;
      solve [ eexists; vm_compute; reflexivity
            | eexists; split; [vm_compute; reflexivity | lia] ].
Defined.

(** X11: the portfolio score of a fetched bundle: when the fetch returns
    a bundle with at least one repository in which the star and fork
    counts are not negative and the languages are a dictionary,
    [calculate_portfolio_score] returns a score between 1.5 and 85 and
    six dimensions between 0 and 100; the sub-scores written by the
    enrichment need no further assumption. *)
Theorem fetched_bundle_portfolio_score env username b log :
  get_enhanced_github_data env username = (Data b, log) ->
  repos b <> [] ->
  Forall (fun r => count_field r "stargazers_count"
                   /\ count_field r "forks_count"
                   /\ returns (py_keys (dict_get r "languages" (PDict ∅))))
         (repos b) ->
  exists score dims,
    calculate_portfolio_score (Data b) = Ret (score, dims)
    /\ (15 # 10 <= score /\ score <= 85)%Q
    /\ (forall k, is_Some (dims !! k) <-> k ∈ dimension_names)
    /\ (forall k v, dims !! k = Some v -> in_range v).
Proof.
  intros Hfetch Hne Hall. apply portfolio_score_on_scored_bundle; [done|].
  apply Forall_lookup. intros i r Hi.
  rewrite Forall_lookup in Hall. destruct (Hall i r Hi) as (Hs & Hf & Hl).
  destruct (fetched_repo_scores_in_range _ _ _ _ _ _ Hfetch Hi)
    as ((d & Hd & Hdr) & (c & Hc & Hcr) & (a & Ha & Har)).
  unfold scored, number_in, dict_get. rewrite Hd, Hc, Ha. simpl.
  repeat split; eauto.
Qed.

Lemma fetched_bundle_portfolio_score_witness :
  exists score dims,
    calculate_portfolio_score (Data (fetched_bundle 2)) = Ret (score, dims)
    /\ (15 # 10 <= score /\ score <= 85)%Q
    /\ (forall k, is_Some (dims !! k) <-> k ∈ dimension_names)
    /\ (forall k v, dims !! k = Some v -> in_range v).
Proof.
  apply (fetched_bundle_portfolio_score (healthy_host 2) "octocat"
           (fetched_bundle 2) []).
  - second_fetched.
  - intros H. apply (f_equal length) in H. vm_compute in H. discriminate H.
  - apply Forall_lookup. intros i r Hi.
    assert (Hi2 : (i < 2)%nat).
    { apply lookup_lt_Some in Hi. vm_compute in Hi. vm_compute. exact Hi. }
    assert (Hr : r = default ∅ (repos (fetched_bundle 2) !! i))
      by (by rewrite Hi).
    subst r. unfold count_field, returns.
    destruct i as [|[|i]]; [| |lia];
      (repeat split;
       solve [ eexists; vm_compute; reflexivity
             | eexists; split; [vm_compute; reflexivity | lia] ]).
Defined.

(* ===================================================================== *)
(** * Model selection *)
(* ===================================================================== *)

Lemma first_flash_model_find ms :
  first_flash_model ms = genai.name <$> find is_flash ms.
Proof.
  induction ms as [|m ms IH]; simpl; [done|]. unfold is_flash at 1.
  destruct (existsb _ _); simpl; [|done].
  destruct (str_contains "flash" (genai.name m)); simpl; done.
Qed.

Lemma find_first {A} (f : A -> bool) (l : list A) x :
  find f l = Some x ->
  exists before after,
    l = before ++ x :: after /\ f x = true
    /\ Forall (fun y => f y = false) before.
Proof.
  induction l as [|a l IH]; simpl; [discriminate|].
  destruct (f a) eqn:E.
  - intros [= <-]. exists [], l. auto.
  - intros H. destruct (IH H) as (before & after & -> & Hx & Hb).
    exists (a :: before), after. repeat split; [done|]. by constructor.
Qed.

Lemma find_none {A} (f : A -> bool) (l : list A) :
  find f l = None -> Forall (fun y => f y = false) l.
Proof.
  induction l as [|a l IH]; simpl; [constructor|].
  destruct (f a) eqn:E; [discriminate|]. intros H. constructor; auto.
Qed.

Lemma str_contains_nonempty needle_head needle_tail hay :
  str_contains (String needle_head needle_tail) hay = true -> hay <> EmptyString.
Proof. by destruct hay. Qed.

(** X12: [get_working_model] returns no name exactly when the key is
    missing or empty.  With a key it returns the name of the first
    listed model that supports 'generateContent' and has 'flash' in its
    name, if the service can be configured and lists one, and the
    fall-back name in every other case, also when the listing raises; so
    the name returned always contains 'flash' and is never empty. *)
Theorem get_working_model_choice (GEMINI_KEY : option string)
  (svc : genai.service) :
  (get_working_model GEMINI_KEY svc = None <->
   GEMINI_KEY = None \/ GEMINI_KEY = Some EmptyString)
  /\ forall n, get_working_model GEMINI_KEY svc = Some n ->
       str_contains "flash" n = true /\ n <> EmptyString
       /\ ((exists before m after,
              genai.configure_raises svc = false
              /\ genai.listed svc = before ++ m :: after
              /\ genai.name m = n /\ is_flash m = true
              /\ Forall (fun m' => is_flash m' = false) before)
           \/ (n = fallback_model
               /\ (genai.configure_raises svc = true
                   \/ Forall (fun m' => is_flash m' = false)
                             (genai.listed svc)))).
Proof.
  split.
  - unfold get_working_model.
    destruct GEMINI_KEY as [[|c k]|]; [tauto| |tauto].
    split; [|intros [H|H]; discriminate].
    by destruct (select_model svc).
  - intros n Hn.
    assert (Hcases :
      (exists before m after,
          genai.configure_raises svc = false
          /\ genai.listed svc = before ++ m :: after
          /\ genai.name m = n /\ is_flash m = true
          /\ Forall (fun m' => is_flash m' = false) before)
      \/ (n = fallback_model
          /\ (genai.configure_raises svc = true
              \/ Forall (fun m' => is_flash m' = false) (genai.listed svc)))).
    { unfold get_working_model in Hn.
      destruct GEMINI_KEY as [[|c k]|]; try discriminate.
      unfold select_model in Hn. rewrite first_flash_model_find in Hn.
      destruct (genai.configure_raises svc) eqn:Hc.
      { injection Hn as <-. right. auto. }
      destruct (find is_flash (genai.listed svc)) as [m|] eqn:Hfind; simpl in Hn.
      - injection Hn as <-. left.
        apply find_first in Hfind as (before & after & Hl & Hm & Hb).
        exists before, m, after. auto.
      - right. apply find_none in Hfind.
        destruct (genai.listing_raises svc); injection Hn as <-; auto. }
    assert (Hflash : str_contains "flash" n = true).
    { destruct Hcases as [(before & m & after & _ & _ & <- & Hm & _) | [-> _]].
      - unfold is_flash in Hm. by apply andb_prop in Hm as [_ Hm].
      - reflexivity. }
    split; [done|]. split; [|done].
    by eapply str_contains_nonempty.
Qed.

Lemma get_working_model_choice_witness :
  str_contains "flash" "models/gemini-2.0-flash" = true
  /\ "models/gemini-2.0-flash" <> EmptyString.
Proof.
  destruct (get_working_model_choice (Some "key") sample_service) as [_ H].
  destruct (H "models/gemini-2.0-flash") as (H1 & H2 & _).
  - vm_compute. reflexivity.
  - split; [exact H1 | exact H2].
Defined.



(* ===================================================================== *)
(** * The analysis run *)
(* ===================================================================== *)





(* ===================================================================== *)
(** * The tables of the dashboard *)
(* ===================================================================== *)

Lemma activity_rows_returns rs :
  Forall (fun r => (exists s d, r !! "pushed_at" = Some (PStr s)
                                /\ strptime (PStr s) = Ret d)
                   /\ is_Some (r !! "name")
                   /\ is_Some (r !! "stargazers_count")) rs ->
  exists rows,
    activity_rows rs = Ret rows
    /\ length rows = length rs
    /\ forall (i : nat) row, rows !! i = Some row ->
         exists r s, rs !! i = Some r
                     /\ r !! "pushed_at" = Some (PStr s)
                     /\ strptime (PStr s) = Ret (row_last_updated row)
                     /\ r !! "name" = Some (row_repository row)
                     /\ r !! "stargazers_count" = Some (row_stars row).
Proof.
  induction rs as [|r rs IH]; intros Hall; simpl.
  - exists []. split; [done|]. split; [done|]. intros i row Hi. by destruct i.
  - inversion Hall as [|? ? ((s & d & Hs & Hd) & [n Hn] & [st Hst]) Hrest]; subst.
    destruct (IH Hrest) as (rows & Hrows & Hlen & Hlook).
    unfold dict_item. rewrite Hs, Hn, Hst. cbn -[strptime]. rewrite Hd.
    cbn -[strptime]. rewrite Hrows. cbn -[strptime]. eexists. split; [reflexivity|]. split; [simpl; lia|].
    intros [|i] row Hi; simpl in Hi.
    + injection Hi as <-. exists r, s. simpl. auto.
    + apply Hlook in Hi as (r' & s' & ?). exists r', s'. done.
Qed.

(** X16: the 'Recent Activity' table of a fetched bundle: when the
    first ten repositories of a returned bundle have a [name] and a
    [stargazers_count], the loop returns one row for each of them, in
    order, no more than ten; its parsing of [pushed_at] cannot fail,
    because the fetch has parsed the same text. *)
Theorem recent_activity_of_fetched_bundle env username b log :
  get_enhanced_github_data env username = (Data b, log) ->
  Forall (fun r => is_Some (r !! "name") /\ is_Some (r !! "stargazers_count"))
         (take 10 (repos b)) ->
  exists rows,
    recent_activity b = Ret rows
    /\ length rows = Nat.min 10 (length (repos b))
    /\ forall (i : nat) row, rows !! i = Some row ->
         exists r s, repos b !! i = Some r
                     /\ r !! "pushed_at" = Some (PStr s)
                     /\ strptime (PStr s) = Ret (row_last_updated row)
                     /\ r !! "name" = Some (row_repository row)
                     /\ r !! "stargazers_count" = Some (row_stars row).
Proof.
  intros Hfetch Hall. unfold recent_activity.
  destruct (activity_rows_returns (take 10 (repos b)))
    as (rows & Hrows & Hlen & Hlook).
  { apply Forall_lookup. intros i r Hi. rewrite Forall_lookup in Hall.
    split; [|by apply (Hall i r Hi)].
    apply lookup_take_Some in Hi as [Hi _].
    by eapply fetched_repo_pushed_at_parses. }
  exists rows. split; [done|]. split; [by rewrite Hlen, length_take|].
  intros i row Hi. apply Hlook in Hi as (r & s & Hr & ?).
  exists r, s. split; [|done]. by apply lookup_take_Some in Hr as [Hr _].
Qed.

Lemma recent_activity_of_fetched_bundle_witness :
  exists rows,
    recent_activity (fetched_bundle 2) = Ret rows
    /\ length rows = Nat.min 10 (length (repos (fetched_bundle 2)))
    /\ forall (i : nat) row, rows !! i = Some row ->
         exists r s, repos (fetched_bundle 2) !! i = Some r
                     /\ r !! "pushed_at" = Some (PStr s)
                     /\ strptime (PStr s) = Ret (row_last_updated row)
                     /\ r !! "name" = Some (row_repository row)
                     /\ r !! "stargazers_count" = Some (row_stars row).
Proof.
  apply (recent_activity_of_fetched_bundle (healthy_host 2) "octocat"
           (fetched_bundle 2) []).
  - second_fetched.
  - apply Forall_lookup. intros i r Hi.
    apply lookup_take_Some in Hi as [Hi _].
    assert (Hi2 : (i < 2)%nat).
    { apply lookup_lt_Some in Hi. vm_compute in Hi. vm_compute. exact Hi. }
    assert (Hr : r = default ∅ (repos (fetched_bundle 2) !! i))
      by (by rewrite Hi).
    subst r.
    destruct i as [|[|i]]; [| |lia];
      (split; eexists; vm_compute; reflexivity).
Defined.

Lemma report_rows_returns rs :
  Forall (fun r => is_Some (r !! "name") /\ is_Some (r !! "stargazers_count")
                   /\ is_Some (r !! "forks_count")
                   /\ is_Some (r !! "doc_score")) rs ->
  exists rows,
    report_rows rs = Ret rows
    /\ length rows = length rs
    /\ forall (i : nat) row, rows !! i = Some row ->
         exists r, rs !! i = Some r
                   /\ r !! "name" = Some (report_name row)
                   /\ r !! "stargazers_count" = Some (report_stars row)
                   /\ r !! "forks_count" = Some (report_forks row)
                   /\ r !! "doc_score" = Some (report_doc_score row).
Proof.
  induction rs as [|r rs IH]; intros Hall; simpl.
  - exists []. split; [done|]. split; [done|]. intros i row Hi. by destruct i.
  - inversion Hall as [|? ? ([n Hn] & [st Hst] & [fk Hfk] & [d Hd]) Hrest]; subst.
    destruct (IH Hrest) as (rows & Hrows & Hlen & Hlook).
    unfold dict_item. rewrite Hn, Hst, Hfk, Hd. simpl.
    rewrite Hrows. simpl. eexists. split; [reflexivity|]. split; [simpl; lia|].
    intros [|i] row Hi; simpl in Hi.
    + injection Hi as <-. exists r. simpl. auto.
    + apply Hlook in Hi as (r' & ?). exists r'. done.
Qed.

(** X17: the repositories of the exported report of a fetched bundle:
    when the first ten repositories of a returned bundle have a [name],
    a [stargazers_count] and a [forks_count], the report lists each of
    them, in order, no more than ten, and the [doc_score] it gives is
    the documentation score of the listed repository, between 0 and
    100. *)
Theorem report_of_fetched_bundle env username b log :
  get_enhanced_github_data env username = (Data b, log) ->
  Forall (fun r => is_Some (r !! "name") /\ is_Some (r !! "stargazers_count")
                   /\ is_Some (r !! "forks_count"))
         (take 10 (repos b)) ->
  exists rows,
    report_repositories b = Ret rows
    /\ length rows = Nat.min 10 (length (repos b))
    /\ forall (i : nat) row, rows !! i = Some row ->
         exists r, repos b !! i = Some r
                   /\ r !! "name" = Some (report_name row)
                   /\ r !! "stargazers_count" = Some (report_stars row)
                   /\ r !! "forks_count" = Some (report_forks row)
                   /\ report_doc_score row
                      = PInt (calculate_documentation_score r)
                   /\ 0 <= calculate_documentation_score r <= 100.
Proof.
  intros Hfetch Hall. unfold report_repositories.
  destruct (report_rows_returns (take 10 (repos b)))
    as (rows & Hrows & Hlen & Hlook).
  { apply Forall_lookup. intros i r Hi. rewrite Forall_lookup in Hall.
    destruct (Hall i r Hi) as (? & ? & ?). repeat split; try done.
    apply lookup_take_Some in Hi as [Hi _].
    destruct (fetched_repo_scores_consistent _ _ _ _ _ _ Hfetch Hi) as (Hd & _).
    by eexists. }
  exists rows. split; [done|]. split; [by rewrite Hlen, length_take|].
  intros i row Hi. apply Hlook in Hi as (r & Hr & Hn & Hs & Hf & Hd).
  apply lookup_take_Some in Hr as [Hr _].
  exists r. repeat split; try done; try apply documentation_score_range.
  destruct (fetched_repo_scores_consistent _ _ _ _ _ _ Hfetch Hr) as (Hd' & _).
  rewrite Hd' in Hd. by injection Hd as <-.
Qed.

Lemma report_of_fetched_bundle_witness :
  exists rows,
    report_repositories (fetched_bundle 2) = Ret rows
    /\ length rows = Nat.min 10 (length (repos (fetched_bundle 2)))
    /\ forall (i : nat) row, rows !! i = Some row ->
         exists r, repos (fetched_bundle 2) !! i = Some r
                   /\ r !! "name" = Some (report_name row)
                   /\ r !! "stargazers_count" = Some (report_stars row)
                   /\ r !! "forks_count" = Some (report_forks row)
                   /\ report_doc_score row
                      = PInt (calculate_documentation_score r)
                   /\ 0 <= calculate_documentation_score r <= 100.
Proof.
  apply (report_of_fetched_bundle (healthy_host 2) "octocat"
           (fetched_bundle 2) []).
  - second_fetched.
  - apply Forall_lookup. intros i r Hi.
    apply lookup_take_Some in Hi as [Hi _].
    assert (Hi2 : (i < 2)%nat).
    { apply lookup_lt_Some in Hi. vm_compute in Hi. vm_compute. exact Hi. }
    assert (Hr : r = default ∅ (repos (fetched_bundle 2) !! i))
      by (by rewrite Hi).
    subst r.
    destruct i as [|[|i]]; [| |lia];
      (repeat split; eexists; vm_compute; reflexivity).
Defined.

(* ===================================================================== *)
(** * Fence markers *)
(* ===================================================================== *)

Local Open Scope N_scope.

Lemma starts_with_app p s : starts_with p (p ++ s) = true.
Proof. induction p as [|a p IH]; simpl; [done|]. by rewrite N.eqb_refl. Qed.

Lemma starts_with_cons a p b s :
  starts_with (a :: p) (b :: s) = (a =? b) && starts_with p s.
Proof. reflexivity. Qed.

Lemma starts_with_head_absent c p s :
  c ∉ s -> starts_with (c :: p) s = false.
Proof.
  destruct s as [|x s]; [done|]. intros Hno.
  apply not_elem_of_cons in Hno as [Hx _]. simpl.
  destruct (c =? x) eqn:E; [apply N.eqb_eq in E; congruence | done].
Qed.

(** The characters of an occurrence that was replaced are passed over. *)
Lemma replace_from_skip old new a s :
  replace_from (length a) old new (a ++ s) = replace_from 0 old new s.
Proof.
  induction a as [|c a IH]; simpl; [done|]. exact IH.
Qed.

(** Text without the first character of the pattern is copied. *)
Lemma replace_from_copy c0 old' new a s :
  c0 ∉ a ->
  replace_from 0 (c0 :: old') new (a ++ s)
  = a ++ replace_from 0 (c0 :: old') new s.
Proof.
  induction a as [|x a IH]; intros Hno; simpl; [done|].
  apply not_elem_of_cons in Hno as [Hx Ha].
  destruct (c0 =? x) eqn:E; [apply N.eqb_eq in E; congruence|].
  simpl. f_equal. by apply IH.
Qed.

(** An occurrence at the front is replaced. *)
Lemma replace_from_front c0 old' new s :
  replace_from 0 (c0 :: old') new ((c0 :: old') ++ s)
  = new ++ replace_from 0 (c0 :: old') new s.
Proof.
  pose proof (starts_with_app (c0 :: old') s) as Hstart.
  cbn [replace_from app] in *. rewrite Hstart.
  replace (length (c0 :: old') - 1)%nat with (length old') by (simpl; lia).
  by rewrite replace_from_skip.
Qed.

Lemma replace_no_occurrence c0 old' new a :
  c0 ∉ a -> replace (c0 :: old') new a = a.
Proof.
  intros Hno. unfold replace.
  rewrite <- (app_nil_r a) at 1. rewrite replace_from_copy by done.
  simpl. by rewrite app_nil_r.
Qed.

(** X18: the fence markers do not matter: for a text without backquote
    in which an opening marker and a closing marker are inserted, the
    closing one not directly followed by the letters json, the adapter
    decodes exactly what it decodes for the bare text, namely the text
    with its ends stripped. *)
Theorem fences_are_removed (pre body post : list N) (model_name : option string) :
  96 ∉ pre -> 96 ∉ body -> 96 ∉ post ->
  starts_with (pystr_of "json") post = false ->
  let fenced := pre ++ pystr_of "```json" ++ body ++ pystr_of "```" ++ post in
  let bare := pre ++ body ++ post in
  without_fences fenced = strip bare
  /\ without_fences bare = strip bare
  /\ analyze_with_ai model_name (Generated fenced)
     = analyze_with_ai model_name (Generated bare).
Proof.
  intros Hpre Hbody Hpost Hjson. cbv zeta.
  change (pystr_of "```json") with [96; 96; 96; 106; 115; 111; 110].
  change (pystr_of "```") with [96; 96; 96].
  change (pystr_of "json") with [106; 115; 111; 110] in Hjson.
  assert (Hbare : 96 ∉ pre ++ body ++ post).
  { rewrite !elem_of_app. tauto. }
  assert (Hclose : replace_from 0 [96; 96; 96; 106; 115; 111; 110] []
                     ([96; 96; 96] ++ post) = [96; 96; 96] ++ post).
  { assert (Hp : replace_from 0 [96; 96; 96; 106; 115; 111; 110] [] post = post)
      by (by apply (replace_no_occurrence 96)).
    cbn [app replace_from]. rewrite !starts_with_cons, !N.eqb_refl.
    cbn [andb]. rewrite Hjson, !(starts_with_head_absent 96) by done.
    by rewrite Hp. }
  assert (Hfirst : replace [96; 96; 96; 106; 115; 111; 110] []
                     (pre ++ [96; 96; 96; 106; 115; 111; 110] ++ body
                      ++ [96; 96; 96] ++ post)
                   = pre ++ body ++ [96; 96; 96] ++ post).
  { unfold replace. rewrite replace_from_copy by done.
    rewrite replace_from_front, app_nil_l.
    rewrite replace_from_copy by done. by rewrite Hclose. }
  assert (Hsecond : replace [96; 96; 96] [] (pre ++ body ++ [96; 96; 96] ++ post)
                    = pre ++ body ++ post).
  { unfold replace. rewrite replace_from_copy by done.
    rewrite replace_from_copy by done.
    rewrite replace_from_front, app_nil_l.
    fold (replace [96; 96; 96] [] post).
    by rewrite (replace_no_occurrence 96). }
  assert (H1 : without_fences
                 (pre ++ [96; 96; 96; 106; 115; 111; 110] ++ body
                  ++ [96; 96; 96] ++ post)
               = strip (pre ++ body ++ post)).
  { unfold without_fences.
    change (pystr_of "```json") with [96; 96; 96; 106; 115; 111; 110].
    change (pystr_of "```") with [96; 96; 96].
    by rewrite Hfirst, Hsecond. }
  assert (H2 : without_fences (pre ++ body ++ post) = strip (pre ++ body ++ post)).
  { unfold without_fences.
    change (pystr_of "```json") with [96; 96; 96; 106; 115; 111; 110].
    change (pystr_of "```") with [96; 96; 96].
    rewrite (replace_no_occurrence 96 [96; 96; 106; 115; 111; 110] []
               (pre ++ body ++ post)) by done.
    by rewrite (replace_no_occurrence 96) by done. }
  split; [done|]. split; [done|].
  unfold analyze_with_ai. by rewrite H1, H2.
Qed.

Lemma fences_are_removed_witness :
  without_fences fenced_response = strip ([] ++ (10 :: score_only_response) ++ [10; 10]).
Proof.
  apply (fences_are_removed [] (10 :: score_only_response ++ [10]) [10] None).
  - match goal with
    | |- ?P => apply (proj1 (bool_decide_eq_true P)); vm_compute; reflexivity
    end.
  - match goal with
    | |- ?P => apply (proj1 (bool_decide_eq_true P)); vm_compute; reflexivity
    end.
  - match goal with
    | |- ?P => apply (proj1 (bool_decide_eq_true P)); vm_compute; reflexivity
    end.
  - reflexivity.
Defined.

Local Close Scope N_scope.

(* ===================================================================== *)
(** * Data fetcher: sentinels, reported errors and size *)
(* ===================================================================== *)

Lemma fetch_body_never_no_token env username :
  fetch_body env username <> Ret NO_TOKEN.
Proof.
  unfold fetch_body. intros H.
  apply bind_returns in H as ([status body] & _ & H). simpl in H.
  destruct (status =? 200); simpl in H; [|discriminate].
  repeat (apply bind_returns in H as (? & _ & H)). discriminate.
Qed.

(** X19: the three outcomes of the fetch.  It returns the 'no token'
    sentinel exactly when the token is missing or empty, and then
    nothing is reported; an error is reported only together with the
    failure sentinel, one exception at a time; a user lookup answered
    with another status than 200 gives the failure sentinel without any
    report, and one that raises gives it with the exception reported. *)
Theorem fetch_outcomes env username :
  (fst (get_enhanced_github_data env username) = NO_TOKEN <->
   GITHUB_TOKEN env = None \/ GITHUB_TOKEN env = Some EmptyString)
  /\ (snd (get_enhanced_github_data env username) <> [] ->
      fst (get_enhanced_github_data env username) = ERROR
      /\ exists e, snd (get_enhanced_github_data env username) = [e])
  /\ (forall token status body,
        GITHUB_TOKEN env = Some token -> token <> EmptyString ->
        get_user env username = Response status body -> status <> 200 ->
        get_enhanced_github_data env username = (ERROR, []))
  /\ (forall token,
        GITHUB_TOKEN env = Some token -> token <> EmptyString ->
        get_user env username = ConnectionFailed ->
        get_enhanced_github_data env username = (ERROR, [RequestException])).
Proof.
  unfold get_enhanced_github_data.
  pose proof (fetch_body_never_no_token env username) as Hbody.
  split; [|split; [|split]].
  - destruct (GITHUB_TOKEN env) as [[|c token]|]; simpl; [tauto| |tauto].
    split; [|intros [H|H]; discriminate].
    destruct (fetch_body env username) as [[| |b]|e]; simpl; done.
  - destruct (GITHUB_TOKEN env) as [[|c token]|]; simpl; [done| |done].
    destruct (fetch_body env username) as [r|e]; simpl; [done|].
    intros _. split; [done|]. by exists e.
  - intros token status body -> Hne Huser Hs.
    destruct token as [|c token]; [done|].
    unfold fetch_body. rewrite Huser. simpl.
    apply Z.eqb_neq in Hs. by rewrite Hs.
  - intros token -> Hne Huser.
    destruct token as [|c token]; [done|].
    unfold fetch_body. by rewrite Huser.
Qed.

Lemma fetch_outcomes_witness :
  get_enhanced_github_data
    {| GITHUB_TOKEN := Some "token"; clock := fun _ => clock_january;
       get_user := fun _ => Response 404 None;
       get_repos := fun _ _ => ConnectionFailed;
       get_readme := fun _ => ConnectionFailed;
       get_languages := fun _ => ConnectionFailed;
       get_commit_stats := fun _ => ConnectionFailed;
       get_orgs := fun _ => ConnectionFailed |} "nobody"
  = (ERROR, []).
Proof.
  eapply fetch_outcomes.
  - reflexivity.
  - discriminate.
  - reflexivity.
  - discriminate.
Defined.

(** X20: the size of a returned bundle: when no page of the listing
    holds more than 30 repositories, as the page size asked for
    promises, a returned bundle holds at most 79 of them: fewer than 50
    before the last page and that page. *)
Theorem fetched_bundle_size env username b log :
  (forall page rs, get_repos env username page = Response 200 (Some rs) ->
                   (length rs <= 30)%nat) ->
  get_enhanced_github_data env username = (Data b, log) ->
  (length (repos b) <= 79)%nat.
Proof.
  intros Hpages Hfetch.
  apply fetch_bundle_inv in Hfetch as (_ & raw & ? & ? & _ & _ & Hraw & Henh & _).
  apply enhance_repos_length in Henh. rewrite Henh.
  apply (fetch_repo_pages_bound env username 30 Hpages) in Hraw.
  simpl in Hraw. lia.
Qed.

Lemma fetched_bundle_size_witness :
  (length (repos (fetched_bundle 2)) <= 79)%nat.
Proof.
  apply (fetched_bundle_size (healthy_host 2) "octocat" (fetched_bundle 2) []).
  - intros page rs Hrs. simpl in Hrs. injection Hrs as <-.
    unfold page_of. rewrite length_take. lia.
  - second_fetched.
Defined.

(** X21: the README and commit-statistics calls never decide the fate
    of a fetch: replacing what the host answers to them by anything else,
    failures included, leaves unchanged whether the fetch returns a
    bundle and which errors it reports. *)
Theorem readme_and_stats_never_abort env readme stats username :
  is_bundle (fst (get_enhanced_github_data
                    (with_readme_and_stats env readme stats) username))
  = is_bundle (fst (get_enhanced_github_data env username))
  /\ snd (get_enhanced_github_data
            (with_readme_and_stats env readme stats) username)
     = snd (get_enhanced_github_data env username)
  /\ length (repos_of (fst (get_enhanced_github_data
                              (with_readme_and_stats env readme stats) username)))
     = length (repos_of (fst (get_enhanced_github_data env username))).
Proof.
  destruct (fetch_tolerates_readme_and_stats env readme stats username)
    as [Hb Hs].
  split; [done|]. split; [done|].
  destruct (get_enhanced_github_data (with_readme_and_stats env readme stats)
              username) as [[| |b'] log'] eqn:E';
    destruct (get_enhanced_github_data env username) as [[| |b] log] eqn:E;
    simpl in *; try done.
  apply fetch_bundle_inv in E' as (_ & raw' & ? & ? & _ & _ & Hraw' & Henh' & _).
  apply fetch_bundle_inv in E as (_ & raw & ? & ? & _ & _ & Hraw & Henh & _).
  rewrite <- (fetch_repo_pages_ext env (with_readme_and_stats env readme stats))
    in Hraw' by done.
  rewrite Hraw in Hraw'. injection Hraw' as <-.
  apply enhance_repos_length in Henh, Henh'. congruence.
Qed.
